(** * dict_definition: schema-driven validation, defaults, clean and update

    A shallow embedding of [dict_definition/dict_definition.py]: the field
    classes ([Field] and its subclasses), and the class methods of
    [DefinedDict] ([_get_document_errors], [get_document_errors], [is_valid],
    [make_default], [clean], [update]).

    Conventions of the embedding.
    - A Python object that can sit in a document is a [value]; the tree of a
      document is a pure term, with the in-place mutations of [clean] and
      [update] written as explicit state passing on the mutated dictionary.
      Documents and patches are taken to be trees: no object is reachable
      under two keys.  Where that matters, for the frame of [update], the
      method is also given on a store of dictionaries shared by reference
      ([Shared]).
    - A Python [dict] is an insertion-ordered association list with string
      keys ([dict V]); [dict_set] replaces a bound key in place and appends a
      fresh one, as item assignment does.
    - A Python [float] is a rational number (finite floats are exactly
      rationals; Python compares [int] and [float] by exact value).
    - Raising is explicit: a method that returns is [Ok r], one that raises
      is [Raise e]; a method that mutates before it raises returns the state
      it left together with the exception.
    - A generator is the list of the records it yields before it stops,
      together with the exception that stopped it, if any.
    - The [choices] of a field are a list or a dict, as the docstring of
      [Field] has it. *)

From Stdlib Require Import List String Ascii ZArith QArith Bool Lia.
Import ListNotations.
Set Warnings "-register-all".
Local Open Scope string_scope.
Local Open Scope list_scope.

(** ** Python dictionaries with string keys *)

Module Dict.

Definition dict (V : Type) : Type := list (string * V).

(** [d.get(k)] / [d[k]] *)
Fixpoint dict_get {V} (d : dict V) (k : string) : option V :=
  match d with
  | [] => None
  | (k', v) :: rest => if String.eqb k' k then Some v else dict_get rest k
  end.

(** [k in d] *)
Definition dict_mem {V} (d : dict V) (k : string) : bool :=
  match dict_get d k with Some _ => true | None => false end.

(** [d[k] = v] *)
Fixpoint dict_set {V} (d : dict V) (k : string) (v : V) : dict V :=
  match d with
  | [] => [(k, v)]
  | (k', v') :: rest =>
      if String.eqb k' k then (k', v) :: rest else (k', v') :: dict_set rest k v
  end.

(** [d.pop(k)] for the resulting dictionary *)
Fixpoint dict_pop {V} (d : dict V) (k : string) : dict V :=
  match d with
  | [] => []
  | (k', v') :: rest =>
      if String.eqb k' k then dict_pop rest k else (k', v') :: dict_pop rest k
  end.

(** [d.update(other)] *)
Definition dict_update {V} (d other : dict V) : dict V :=
  fold_left (fun acc kv => dict_set acc (fst kv) (snd kv)) other d.

(** [d.keys()] *)
Definition dict_keys {V} (d : dict V) : list string := map fst d.

(** The invariant of a dictionary: its keys are pairwise distinct. *)
Fixpoint distinct (l : list string) : bool :=
  match l with
  | [] => true
  | k :: rest => negb (existsb (String.eqb k) rest) && distinct rest
  end.

Definition unique_keys {V} (d : dict V) : bool := distinct (dict_keys d).

End Dict.
Export Dict.

(** ** Values *)

Inductive value : Type :=
| VNone
| VBool (b : bool)
| VInt (z : Z)
| VFloat (q : Q)
| VStr (s : string)
| VList (l : list value)
| VDict (d : list (string * value))
| VDateTime (t : Z).

(** [v is None] *)
Definition is_None (v : value) : bool :=
  match v with VNone => true | _ => false end.

(** The number a value of a numeric type stands for ([bool] is a subclass of
    [int]: [True] is 1 and [False] is 0). *)
Definition num_of (v : value) : option Q :=
  match v with
  | VBool b => Some (inject_Z (if b then 1 else 0))
  | VInt z => Some (inject_Z z)
  | VFloat q => Some q
  | _ => None
  end.

Definition Qltb (x y : Q) : bool := negb (Qle_bool y x).

(** [a == b] *)
Fixpoint py_eq (a b : value) {struct a} : bool :=
  match a, b with
  | VNone, VNone => true
  | VStr s, VStr t => String.eqb s t
  | VDateTime s, VDateTime t => Z.eqb s t
  | VList l, VList m =>
      (fix all2 (l m : list value) {struct l} : bool :=
         match l, m with
         | [], [] => true
         | x :: l', y :: m' => py_eq x y && all2 l' m'
         | _, _ => false
         end) l m
  | VDict d, VDict e =>
      Nat.eqb (List.length d) (List.length e) &&
      (fix sub (d : list (string * value)) {struct d} : bool :=
         match d with
         | [] => true
         | (k, x) :: d' =>
             match dict_get e k with
             | Some y => py_eq x y && sub d'
             | None => false
             end
         end) d
  | _, _ =>
      match num_of a, num_of b with
      | Some x, Some y => Qeq_bool x y
      | _, _ => false
      end
  end.

(** Whether [hash(v)] succeeds: lists and dictionaries are unhashable. *)
Definition hashable (v : value) : bool :=
  match v with VList _ | VDict _ => false | _ => true end.

(** The classes a field's [type] attribute may name. *)
Inductive pytype : Type :=
| TStr | TInt | TFloat | TBool | TList | TDict | TDateTime.

(** [isinstance(v, t)] for one class [t] *)
Definition isinstance1 (v : value) (t : pytype) : bool :=
  match t, v with
  | TStr, VStr _ => true
  | TInt, VInt _ => true
  | TInt, VBool _ => true
  | TFloat, VFloat _ => true
  | TBool, VBool _ => true
  | TList, VList _ => true
  | TDict, VDict _ => true
  | TDateTime, VDateTime _ => true
  | _, _ => false
  end.

(** [isinstance(v, ts)] for a class or a tuple of classes *)
Definition isinstance (v : value) (ts : list pytype) : bool :=
  existsb (isinstance1 v) ts.

(** ** Exceptions *)

Inductive exn : Type := NameError | TypeError | AttributeError.

Inductive result (A : Type) : Type :=
| Ok (a : A)
| Raise (e : exn).
Arguments Ok {A} a.
Arguments Raise {A} e.

Definition bind {A B} (c : result A) (k : A -> result B) : result B :=
  match c with
  | Ok a => k a
  | Raise e => Raise e
  end.

Notation "x <- c ;; k" := (bind c (fun x => k))
  (at level 61, c at next level, right associativity).

(** Reading a local name that no assignment has bound. *)
Definition unbound_local {A} (name : string) : result A := Raise NameError.

(** ** Field definitions *)

(** The [choices] argument: a list or a dict. *)
Inductive choices_t : Type :=
| ChoiceList (l : list value)
| ChoiceDict (d : list (value * value)).

(** What the [default] slot holds: a value ([None] when nothing is
    configured) or a callable, named by its index in the environment of
    callables. *)
Inductive pyobj : Type :=
| PVal (v : value)
| PFun (f : nat).

(** The keyword arguments of [Field.__init__].  The free-form [**kwargs] are
    left out. *)
Record attrs : Type := mkAttrs {
  attr_is_required : bool;
  attr_choices : option choices_t;
  attr_default : pyobj
}.

(** A field object after its [__init__] has run.  A compiled regex is the
    predicate "[match] succeeds on this string"; the bounds of a number
    field are numbers. *)
Inductive field : Type :=
| Field (a : attrs)
| StringField (a : attrs) (regex : option (string -> bool))
| NumberField (a : attrs) (min max : option Q)
| IntField (a : attrs) (min max : option Q)
| FloatField (a : attrs) (min max : option Q)
| BoolField (a : attrs)
| ListField (a : attrs) (inner_type : option field)
| DictField (a : attrs)
| DefinedDictField (a : attrs) (model : list (string * field))
| DateTimeField (a : attrs).

(** A schema class is its [_fields] table. *)
Definition schema : Type := dict field.

Definition attrs_of (self : field) : attrs :=
  match self with
  | Field a | StringField a _ | NumberField a _ _ | IntField a _ _
  | FloatField a _ _ | BoolField a | ListField a _ | DictField a
  | DefinedDictField a _ | DateTimeField a => a
  end.

Definition is_required (self : field) : bool :=
  attr_is_required (attrs_of self).
Definition choices (self : field) : option choices_t :=
  attr_choices (attrs_of self).
Definition default (self : field) : pyobj :=
  attr_default (attrs_of self).

(** [self.default is None] *)
Definition default_is_None (self : field) : bool :=
  match default self with PVal VNone => true | _ => false end.

(** [isinstance(definition, DefinedDictField)] *)
Definition is_DefinedDictField (self : field) : bool :=
  match self with DefinedDictField _ _ => true | _ => false end.

(** [NumberField.__init__]: the bounds are dropped when [choices] is given. *)
Definition number_bound (a : attrs) (b : option Q) : option Q :=
  match attr_choices a with None => b | Some _ => None end.

Definition NumberField_init (a : attrs) (min max : option Q) : field :=
  NumberField a (number_bound a min) (number_bound a max).
Definition IntField_init (a : attrs) (min max : option Q) : field :=
  IntField a (number_bound a min) (number_bound a max).
Definition FloatField_init (a : attrs) (min max : option Q) : field :=
  FloatField a (number_bound a min) (number_bound a max).

(** The [type] attribute, [None] when the class sets none
    ([hasattr(self, "type")] is false for [Field] and [NumberField]). *)
Definition field_type (self : field) : option (list pytype) :=
  match self with
  | Field _ | NumberField _ _ _ => None
  | StringField _ _ => Some [TStr]
  | IntField _ _ _ => Some [TInt]
  | FloatField _ _ _ => Some [TFloat; TInt]
  | BoolField _ => Some [TBool]
  | ListField _ _ => Some [TList]
  | DictField _ | DefinedDictField _ _ => Some [TDict]
  | DateTimeField _ => Some [TDateTime]
  end.

(** [Field.is_valid_type] *)
Definition is_valid_type (self : field) (value : value) : bool :=
  match field_type self with
  | None => true
  | Some ts => if is_None value then true else isinstance value ts
  end.

(** [value in choices]: a list is searched with [==]; a dict hashes the
    value first. *)
Definition py_in (value : value) (c : choices_t) : result bool :=
  match c with
  | ChoiceList l => Ok (existsb (py_eq value) l)
  | ChoiceDict d =>
      if hashable value then Ok (existsb (fun kv => py_eq value (fst kv)) d)
      else Raise TypeError
  end.

(** An error as [get_error] returns it: the pair (kind, value). *)
Definition error : Type := string * value.

(** [Field.get_error] *)
Definition Field_get_error (self : field) (value : value)
    : result (option error) :=
  if negb (is_valid_type self value) then Ok (Some ("type", value))
  else
    match choices self with
    | Some c =>
        found <- py_in value c ;;
        if negb found then Ok (Some ("value", value)) else Ok None
    | None => Ok None
    end.

(** [self.regex.match(value)]: a pattern matches strings only. *)
Definition regex_match (regex : string -> bool) (value : value) : result bool :=
  match value with
  | VStr s => Ok (regex s)
  | _ => Raise TypeError
  end.

(** [StringField.get_error] *)
Definition StringField_get_error (self : field)
    (regex : option (string -> bool)) (value : value)
    : result (option error) :=
  parent_error <- Field_get_error self value ;;
  match parent_error with
  | Some e => Ok (Some e)
  | None =>
      match regex with
      | Some r =>
          m <- regex_match r value ;;
          if negb m then Ok (Some ("value", value)) else Ok None
      | None => Ok None
      end
  end.

(** [value < bound] and [value >= bound] against a number: any value that is
    not a number raises. *)
Definition py_lt (value : value) (bound : Q) : result bool :=
  match num_of value with
  | Some q => Ok (Qltb q bound)
  | None => Raise TypeError
  end.

Definition py_ge (value : value) (bound : Q) : result bool :=
  match num_of value with
  | Some q => Ok (Qle_bool bound q)
  | None => Raise TypeError
  end.

(** [NumberField.get_error] *)
Definition NumberField_get_error (self : field) (min max : option Q)
    (value : value) : result (option error) :=
  parent_error <- Field_get_error self value ;;
  match parent_error with
  | Some e => Ok (Some e)
  | None =>
      if is_None value then Ok None
      else
        below <- match min with
                 | Some m => py_lt value m
                 | None => Ok false
                 end ;;
        if below then Ok (Some ("value (out of range)", value))
        else
          above <- match max with
                   | Some m => py_ge value m
                   | None => Ok false
                   end ;;
          if above then Ok (Some ("value (out of range)", value))
          else Ok None
  end.

(** The loop of [ListField.get_error] over the elements. *)
Fixpoint first_error (check : value -> result (option error)) (l : list value)
    : result (option error) :=
  match l with
  | [] => Ok None
  | inner :: rest =>
      error <- check inner ;;
      match error with
      | Some e => Ok (Some e)
      | None => first_error check rest
      end
  end.

(** [get_error], dispatched on the class of [self].  In
    [ListField.get_error] the result of the parent check is bound to
    [paraent_error] and the next line reads [parent_error], which nothing
    has bound. *)
Fixpoint get_error (self : field) (value : value) {struct self}
    : result (option error) :=
  match self with
  | StringField _ regex => StringField_get_error self regex value
  | NumberField _ min max | IntField _ min max | FloatField _ min max =>
      NumberField_get_error self min max value
  | ListField _ inner_type =>
      paraent_error <- Field_get_error self value ;;
      parent_error <- unbound_local "parent_error" ;;
      match parent_error with
      | Some e => Ok (Some e)
      | None =>
          if is_None value then Ok None
          else
            match inner_type with
            | Some it =>
                match value with
                | VList l => first_error (get_error it) l
                | _ => Raise TypeError
                end
            | None => Ok None
            end
      end
  | Field _ | BoolField _ | DictField _ | DefinedDictField _ _
  | DateTimeField _ => Field_get_error self value
  end.

(** ** Validation records and generators *)

(** A record yielded by [_get_document_errors]: the 3-tuple
    [(key_string,) + error] or the 2-tuple [(key_string, "required")]. *)
Inductive record : Type :=
| Rec3 (path kind : string) (v : value)
| Rec2 (path kind : string).

(** What a generator does when it is run to its end: the records it yields,
    in order, and the exception that cut it short, if one did. *)
Definition gen : Type := list record * option exn.

Definition gen_stop : gen := ([], None).
Definition gen_raise (e : exn) : gen := ([], Some e).
Definition gen_yield (r : record) : gen := ([r], None).

(** Running [g1], then [g2] unless [g1] raised. *)
Definition gen_seq (g1 g2 : gen) : gen :=
  match g1 with
  | (l, Some e) => (l, Some e)
  | (l, None) => (l ++ fst g2, snd g2)
  end.

(** [key if not parent else ".".join([parent, key])] *)
Definition key_string (parent : option string) (key : string) : string :=
  match parent with
  | None => key
  | Some "" => key
  | Some p => p ++ "." ++ key
  end.

Definition is_substring (key s : string) : bool :=
  match String.index 0 key s with Some _ => true | None => false end.

(** [key in document], for whatever object sits where a document is
    expected. *)
Definition py_contains (document : value) (key : string) : result bool :=
  match document with
  | VDict d => Ok (dict_mem d key)
  | VStr s => Ok (is_substring key s)
  | VList l => Ok (existsb (py_eq (VStr key)) l)
  | _ => Raise TypeError
  end.

(** [document.get(key)]: only a dict has the method. *)
Definition py_get (document : value) (key : string) : result value :=
  match document with
  | VDict d => Ok (match dict_get d key with Some v => v | None => VNone end)
  | _ => Raise AttributeError
  end.

(** The body of the loop of [_get_document_errors] for one entry of the
    field table. *)
Fixpoint field_errors (definition : field) (key : string) (document : value)
    (parent : option string) {struct definition} : gen :=
  let key_string := key_string parent key in
  match py_contains document key with
  | Raise e => gen_raise e
  | Ok true =>
      match py_get document key with
      | Raise e => gen_raise e
      | Ok value =>
          match get_error definition value with
          | Raise e => gen_raise e
          | Ok error =>
              gen_seq
                match error with
                | Some (kind, v) => gen_yield (Rec3 key_string kind v)
                | None => gen_stop
                end
                match definition with
                | DefinedDictField _ model =>
                    (fix loop (fs : list (string * field)) : gen :=
                       match fs with
                       | [] => gen_stop
                       | (k, d) :: rest =>
                           gen_seq (field_errors d k value (Some key_string))
                                   (loop rest)
                       end) model
                | _ => gen_stop
                end
          end
      end
  | Ok false =>
      if is_required definition then gen_yield (Rec2 key_string "required")
      else gen_stop
  end.

(** [DefinedDict._get_document_errors] *)
Fixpoint _get_document_errors (cls : schema) (document : value)
    (parent : option string) : gen :=
  match cls with
  | [] => gen_stop
  | (key, definition) :: rest =>
      gen_seq (field_errors definition key document parent)
              (_get_document_errors rest document parent)
  end.

(** [DefinedDict.get_document_errors]: [list(...)] of the generator. *)
Definition get_document_errors (cls : schema) (document : value)
    : result (list record) :=
  match _get_document_errors cls document None with
  | (l, None) => Ok l
  | (_, Some e) => Raise e
  end.

(** [DefinedDict.is_valid]: one [next] on the generator; [StopIteration] is
    the only exception caught. *)
Definition is_valid (cls : schema) (document : value) : result bool :=
  match _get_document_errors cls document None with
  | (_ :: _, _) => Ok false
  | ([], None) => Ok true
  | ([], Some e) => Raise e
  end.

(** ** Defaults, clean and update *)

(** The keyword flags of [clean]. *)
Record flags : Type := mkFlags {
  set_default : bool;
  remove_undefined : bool;
  allow_none : bool;
  populate_none : bool
}.

(** The defaults of the signature of [clean]. *)
Definition default_flags : flags := mkFlags true true false false.

(** The keys of [document] that are not in the field table are popped. *)
Definition pop_undefined (cls : schema) (document : dict value) : dict value :=
  filter (fun kv => dict_mem cls (fst kv)) document.

(** A mutated object as a call leaves it, and the exception the call
    raised, if any.  A [handler] is what [update] does at a key whose
    existing value is not [None], from the existing value and the patch
    value to the value left under the key. *)
Definition outcome : Type := value * option exn.
Definition handler : Type := value -> value -> outcome.

(** One turn of the loop of [update]; [handlers] maps each declared key to
    the dispatch on its definition. *)
Definition update_item (handlers : dict handler) (document : value)
    (key : string) (value : value) : outcome :=
  match dict_get handlers key with
  | None => (document, None)
  | Some h =>
      match document with
      | VDict d =>
          match dict_get d key with
          | None | Some VNone => (VDict (dict_set d key value), None)
          | Some existing =>
              let (existing', e) := h existing value in
              (VDict (dict_set d key existing'), e)
          end
      | _ => (document, Some AttributeError)
      end
  end.

Fixpoint update_items (handlers : dict handler) (document : value)
    (items : dict value) : outcome :=
  match items with
  | [] => (document, None)
  | (key, value) :: rest =>
      match update_item handlers document key value with
      | (document', None) => update_items handlers document' rest
      | (document', Some e) => (document', Some e)
      end
  end.

(** The loop over [new_value.items()]: only a dict has the method. *)
Definition update_with (handlers : dict handler) (document new_value : value)
    : outcome :=
  match new_value with
  | VDict items => update_items handlers document items
  | _ => (document, Some AttributeError)
  end.

(** The [else] branch of [update] for one definition. *)
Fixpoint update_field (definition : field) (existing value : value)
    {struct definition} : outcome :=
  match definition with
  | DefinedDictField _ model =>
      update_with
        ((fix table (fs : list (string * field)) : dict handler :=
            match fs with
            | [] => []
            | (k, d) :: rest => (k, update_field d) :: table rest
            end) model)
        existing value
  | _ =>
      match value, existing with
      | VDict v, VDict e => (VDict (dict_update e v), None)
      | _, _ => (value, None)
      end
  end.

Definition handlers_of (cls : schema) : dict handler :=
  map (fun kd => (fst kd, update_field (snd kd))) cls.

(** [DefinedDict.update]: the document as the call leaves it, and the
    exception it raised, if any. *)
Definition update (cls : schema) (document new_value : value)
    : outcome :=
  update_with (handlers_of cls) document new_value.

Section Callables.

(** The callables that [default] slots refer to: [call f self] is the value
    of [f(self)]. *)
Variable call : nat -> field -> value.

(** [Field.get_default_value] *)
Definition Field_get_default_value (self : field) : value :=
  match default self with
  | PVal v => v
  | PFun f => call f self
  end.

(** [get_default_value], dispatched on the class of [self]:
    [DefinedDictField] overrides it with [self.model.make_default()]. *)
Fixpoint get_default_value (self : field) {struct self} : value :=
  match self with
  | DefinedDictField _ model =>
      VDict
        ((fix loop (fs : list (string * field)) (default : dict value)
            : dict value :=
            match fs with
            | [] => default
            | (key, definition) :: rest =>
                loop rest
                  (if negb (default_is_None definition)
                   then dict_set default key (get_default_value definition)
                   else default)
            end) model [])
  | _ => Field_get_default_value self
  end.

(** The body of the loop of [make_default]. *)
Definition make_default_step (default : dict value) (kd : string * field)
    : dict value :=
  if negb (default_is_None (snd kd))
  then dict_set default (fst kd) (get_default_value (snd kd))
  else default.

(** [DefinedDict.make_default] *)
Definition make_default (cls : schema) : dict value :=
  fold_left make_default_step cls [].

(** The body of the first loop of [clean] for one entry of the field table.
    The nested call [definition.model.clean(document.get(key))] passes no
    flags. *)
Fixpoint clean_key (definition : field) (key : string) (document : dict value)
    (fl : flags) {struct definition} : dict value :=
  match dict_get document key with
  | None =>
      if negb (default_is_None definition) && set_default fl
      then dict_set document key (get_default_value definition)
      else if populate_none fl then dict_set document key VNone
      else document
  | Some v =>
      if is_None v && negb (allow_none fl) then dict_pop document key
      else
        match definition, v with
        | DefinedDictField _ model, VDict nested =>
            let cleaned :=
              (fix loop (fs : list (string * field)) (doc : dict value)
                 : dict value :=
                 match fs with
                 | [] => doc
                 | (k, d) :: rest => loop rest (clean_key d k doc default_flags)
                 end) model nested in
            dict_set document key
              (VDict (if remove_undefined default_flags
                      then pop_undefined model cleaned else cleaned))
        | _, _ => document
        end
  end.

(** [DefinedDict.clean]: the document as the call leaves it. *)
Definition clean (cls : schema) (document : dict value) (fl : flags)
    : dict value :=
  let cleaned :=
    fold_left (fun doc kd => clean_key (snd kd) (fst kd) doc fl) cls document in
  if remove_undefined fl then pop_undefined cls cleaned else cleaned.

(** A configured default whose value is [None]. *)
Definition null_default (definition : field) : bool :=
  negb (default_is_None definition) && is_None (get_default_value definition).

End Callables.

(** ** Schemas as Python builds them *)

(** [p] holds of every field table reached from [self] through the models
    of nested [DefinedDictField]s. *)
Fixpoint every_model (p : schema -> bool) (self : field) {struct self} : bool :=
  match self with
  | DefinedDictField _ model =>
      p model &&
      (fix go (fs : list (string * field)) : bool :=
         match fs with
         | [] => true
         | (_, d) :: rest => every_model p d && go rest
         end) model
  | _ => true
  end.

Definition every_schema (p : schema -> bool) (cls : schema) : bool :=
  p cls && forallb (fun kd => every_model p (snd kd)) cls.

(** Every [_fields] table, of the class and of the nested models, is a
    dictionary. *)
Definition unique_keys_everywhere (cls : schema) : bool :=
  every_schema unique_keys cls.

(** No field of the class or of a nested model has a configured default
    whose value is [None]. *)
Definition no_null_defaults (call : nat -> field -> value) (cls : schema)
    : bool :=
  every_schema (forallb (fun kd => negb (null_default call (snd kd)))) cls.

(** The number of nested models above the deepest one. *)
Fixpoint height (self : field) {struct self} : nat :=
  match self with
  | DefinedDictField _ model =>
      S ((fix go (fs : list (string * field)) : nat :=
            match fs with
            | [] => O
            | (_, d) :: rest => Nat.max (height d) (go rest)
            end) model)
  | _ => O
  end.

(** The reading of [make_default] in which the class of the field plays no
    part: a literal default is stored as it is, a callable default is
    called on the field and its result stored, a field with no default is
    left out. *)
Definition default_entry_as_stated (call : nat -> field -> value)
    (definition : field) : option value :=
  match default definition with
  | PVal VNone => None
  | PVal v => Some v
  | PFun f => Some (call f definition)
  end.

Definition make_default_as_stated (call : nat -> field -> value)
    (cls : schema) : Prop :=
  forall key,
    dict_get (make_default call cls) key =
    match dict_get cls key with
    | Some definition => default_entry_as_stated call definition
    | None => None
    end.

(** What is bound to [k] in a document. *)
Definition doc_lookup (document : value) (k : string) : option value :=
  match document with
  | VDict d => dict_get d k
  | _ => None
  end.

(** ** Classes of fields *)

(** [isinstance(self, ListField)] *)
Definition is_ListField (self : field) : bool :=
  match self with ListField _ _ => true | _ => false end.

(** The [regex] attribute, [None] for a class that has none. *)
Definition regex_of (self : field) : option (string -> bool) :=
  match self with StringField _ regex => regex | _ => None end.

(** No field of the table is a [DefinedDictField]. *)
Definition flat (cls : schema) : bool :=
  forallb (fun kd => negb (is_DefinedDictField (snd kd))) cls.

(** The first component of a record. *)
Definition record_path (r : record) : string :=
  match r with Rec3 path _ _ | Rec2 path _ => path end.

(** The choices are absent or a list: membership is then tested with [==]
    alone, and the value is never hashed. *)
Definition choices_absent_or_list (self : field) : bool :=
  match choices self with
  | None => true
  | Some (ChoiceList _) => true
  | Some (ChoiceDict _) => false
  end.

(** The fields whose [get_error] has no raising path: not a list field, no
    regex, and, where the class sets no type or a type whose instances
    cannot be hashed, choices that are absent or a list; a [NumberField]
    itself, which sets no type, also has no bounds. *)
Definition no_raising_path (self : field) : bool :=
  match self with
  | ListField _ _ => false
  | StringField _ regex =>
      match regex with None => true | Some _ => false end
  | NumberField _ min max =>
      choices_absent_or_list self &&
      match min, max with None, None => true | _, _ => false end
  | Field _ | DictField _ | DefinedDictField _ _ => choices_absent_or_list self
  | IntField _ _ _ | FloatField _ _ _ | BoolField _ | DateTimeField _ => true
  end.

(** ** The field table of a class *)

(** A base class as [DefinedDictMetaClass.__init__] looks at it: its
    [_fields] table when it has the attribute, and whether it is a subclass
    of [Mixin]. *)
Record base : Type := mkBase {
  base_fields : option schema;
  base_is_mixin : bool
}.

(** An attribute of the class body: an instance of [Field], or anything
    else. *)
Inductive attribute : Type :=
| AField (f : field)
| AOther.

(** [{ k : v for k, v in cdict.items() if isinstance(v, Field) }] *)
Fixpoint new_fields (cdict : dict attribute) : schema :=
  match cdict with
  | [] => []
  | (k, AField f) :: rest => (k, f) :: new_fields rest
  | (k, AOther) :: rest => new_fields rest
  end.

(** The first loop over [bases]: [cls._fields.update(base._fields)] for
    each base that has the attribute. *)
Definition inherit_step (fields : schema) (b : base) : schema :=
  match base_fields b with
  | Some fs => dict_update fields fs
  | None => fields
  end.

Definition inherit_fields (bases : list base) : schema :=
  fold_left inherit_step bases [].

(** [cls._fields] as [DefinedDictMetaClass.__init__] builds it, before the
    [_apply_mixin] hooks run ([Mixin._apply_mixin] itself does nothing). *)
Definition DefinedDictMetaClass_fields (bases : list base)
    (cdict : dict attribute) : schema :=
  dict_update (inherit_fields bases) (new_fields cdict).

(** [cls._mixins]: the bases that are subclasses of [Mixin], in order. *)
Definition DefinedDictMetaClass_mixins (bases : list base) : list base :=
  filter base_is_mixin bases.

(** ** The reverse index of a mapping of choices *)

(** A dict whose keys are values: keys are compared with [==]. *)
Fixpoint vdict_get (d : list (value * value)) (k : value) : option value :=
  match d with
  | [] => None
  | (k', v) :: rest => if py_eq k' k then Some v else vdict_get rest k
  end.

Fixpoint vdict_set (d : list (value * value)) (k v : value)
    : list (value * value) :=
  match d with
  | [] => [(k, v)]
  | (k', v') :: rest =>
      if py_eq k' k then (k', v) :: rest else (k', v') :: vdict_set rest k v
  end.

(** [{ v : k for k, v in choices.items() }]: a value of the mapping becomes
    a key, and has to be hashable. *)
Fixpoint reverse_items (items acc : list (value * value))
    : result (list (value * value)) :=
  match items with
  | [] => Ok acc
  | (k, v) :: rest =>
      if hashable v then reverse_items rest (vdict_set acc v k)
      else Raise TypeError
  end.

(** The [reversed_choices] attribute that [Field.__init__] sets when
    [choices] is a dict; [None] when the attribute is not set. *)
Definition reversed_choices (a : attrs)
    : option (result (list (value * value))) :=
  match attr_choices a with
  | Some (ChoiceDict d) => Some (reverse_items d [])
  | _ => None
  end.

(** No two values of the mapping are equal under [==]. *)
Fixpoint values_distinct (d : list (value * value)) : bool :=
  match d with
  | [] => true
  | (_, v) :: rest =>
      negb (existsb (fun kv => py_eq v (snd kv)) rest) && values_distinct rest
  end.

(** ** update on dictionaries shared by reference *)

(** [update] mutates dictionaries in place, and Python binds a key to an
    object, not to a copy: one dictionary can sit under two keys.  Here a
    dictionary is an object of a store, a value refers to it by its
    location, and [update] is the same method, line by line, on the
    store.  Lists stay values: [update] never mutates one. *)
Module Shared.

Definition loc : Type := nat.

Inductive rvalue : Type :=
| RNone
| RBool (b : bool)
| RInt (z : Z)
| RFloat (q : Q)
| RStr (s : string)
| RList (l : list rvalue)
| RDict (l : loc)
| RDateTime (t : Z).

(** The dictionary that each location holds. *)
Definition store : Type := loc -> dict rvalue.

Definition store_set (s : store) (l : loc) (d : dict rvalue) : store :=
  fun l' => if Nat.eqb l' l then d else s l'.

(** What [update] can raise here: [AttributeError] as before, and the
    [RuntimeError] of a dictionary that changes size while it is iterated. *)
Inductive rexn : Type := RAttributeError | RRuntimeError.

(** The store as a call leaves it, and the exception it raised, if any. *)
Definition outcome : Type := store * option rexn.

(** What [update] does at a key of the dictionary at [ld] whose existing
    value is not [None]. *)
Definition handler : Type :=
  loc -> string -> rvalue -> rvalue -> store -> outcome.

(** One turn of the loop of [update]. *)
Definition update_item (handlers : dict handler) (document : rvalue)
    (key : string) (value : rvalue) (s : store) : outcome :=
  match dict_get handlers key with
  | None => (s, None)
  | Some h =>
      match document with
      | RDict ld =>
          match dict_get (s ld) key with
          | None | Some RNone =>
              (store_set s ld (dict_set (s ld) key value), None)
          | Some existing => h ld key existing value s
          end
      | _ => (s, Some RAttributeError)
      end
  end.

(** The loop over [new_value.items()], a live view of the dictionary at
    [lp]: each step of the iterator first checks that the dictionary still
    has the size it had when the loop began, then reads the item at the
    next position. *)
Fixpoint update_loop (handlers : dict handler) (document : rvalue) (lp : loc)
    (size todo i : nat) (s : store) : outcome :=
  if negb (Nat.eqb (List.length (s lp)) size) then (s, Some RRuntimeError)
  else
    match todo with
    | O => (s, None)
    | S todo' =>
        match nth_error (s lp) i with
        | None => (s, None)
        | Some (key, value) =>
            match update_item handlers document key value s with
            | (s', None) =>
                update_loop handlers document lp size todo' (S i) s'
            | (s', Some e) => (s', Some e)
            end
        end
    end.

Definition update_with (handlers : dict handler) (document new_value : rvalue)
    (s : store) : outcome :=
  match new_value with
  | RDict lp =>
      update_loop handlers document lp (List.length (s lp))
        (List.length (s lp)) 0 s
  | _ => (s, Some RAttributeError)
  end.

(** The [else] branch of [update] for one definition:
    [definition.model.update(document.get(key), value)], or
    [document[key].update(value)], or [document[key] = value]. *)
Fixpoint update_field (definition : field) (ld : loc) (key : string)
    (existing value : rvalue) (s : store) {struct definition} : outcome :=
  match definition with
  | DefinedDictField _ model =>
      update_with
        ((fix table (fs : list (string * field)) : dict handler :=
            match fs with
            | [] => []
            | (k, d) :: rest => (k, update_field d) :: table rest
            end) model)
        existing value s
  | _ =>
      match value, existing with
      | RDict lv, RDict le =>
          (store_set s le (dict_update (s le) (s lv)), None)
      | _, _ => (store_set s ld (dict_set (s ld) key value), None)
      end
  end.

Definition handlers_of (cls : schema) : dict handler :=
  map (fun kd => (fst kd, update_field (snd kd))) cls.

(** [DefinedDict.update] *)
Definition update (cls : schema) (document new_value : rvalue) (s : store)
    : outcome :=
  update_with (handlers_of cls) document new_value s.

(** The tree that is seen from a value in a store, down to a depth. *)
Fixpoint content (depth : nat) (s : store) (v : rvalue) {struct depth}
    : value :=
  match depth with
  | O => VNone
  | S n =>
      match v with
      | RNone => VNone
      | RBool b => VBool b
      | RInt z => VInt z
      | RFloat q => VFloat q
      | RStr x => VStr x
      | RDateTime t => VDateTime t
      | RList l => VList (map (content n s) l)
      | RDict l => VDict (map (fun kv => (fst kv, content n s (snd kv))) (s l))
      end
  end.

(** Every dictionary that the value refers to, directly or through lists,
    is in the region [M]. *)
Fixpoint refs_in (M : loc -> Prop) (v : rvalue) {struct v} : Prop :=
  match v with
  | RDict l => M l
  | RList vs =>
      (fix all (vs : list rvalue) : Prop :=
         match vs with
         | [] => True
         | x :: rest => refs_in M x /\ all rest
         end) vs
  | _ => True
  end.

(** The region [M] is closed in the store: the dictionaries of [M] refer
    to dictionaries of [M] only. *)
Definition closed (M : loc -> Prop) (s : store) : Prop :=
  forall l, M l -> forall k v, In (k, v) (s l) -> refs_in M v.

(** The store [s'] differs from [s] inside the region only, and the
    region is still closed. *)
Definition within_region (M : loc -> Prop) (s s' : store) : Prop :=
  closed M s' /\ forall l, ~ M l -> s' l = s l.

(** A handler that, from values of the region, changes the region only. *)
Definition handler_within (M : loc -> Prop) (h : handler) : Prop :=
  forall ld key existing value s s' e,
    closed M s -> M ld -> refs_in M existing -> refs_in M value ->
    h ld key existing value s = (s', e) ->
    within_region M s s'.

(** The keys that are both in the patch at [lp] and declared. *)
Definition patched (cls : schema) (s : store) (lp : loc) (k : string) : bool :=
  dict_mem (s lp) k && dict_mem cls k.

(** What holds of the store all along the loop of a call of [update] on
    the document at [ld] and the patch at [lp], begun in the store [s0]:
    the region [M] is closed, nothing changed outside [M] and the
    document, the document has its bindings of [s0] at the keys that are
    not patched, and the values under its patched keys are of [M]. *)
Definition frame_invariant (cls : schema) (M : loc -> Prop) (ld lp : loc)
    (s0 s : store) : Prop :=
  closed M s /\
  (forall l, ~ M l -> l <> ld -> s l = s0 l) /\
  (forall k, patched cls s0 lp k = false ->
             dict_get (s ld) k = dict_get (s0 ld) k) /\
  (forall k v, patched cls s0 lp k = true -> dict_get (s ld) k = Some v ->
               refs_in M v).

(** The frame property of [update] when it is read on the content of the
    document: at every key that is not both in the patch and declared, the
    tree seen under the key is the one seen before the call. *)
Definition frame_as_stated (cls : schema) (ld lp : loc) (s : store) : Prop :=
  forall (k : string) (depth : nat),
    patched cls s lp k = false ->
    option_map (content depth (fst (update cls (RDict ld) (RDict lp) s)))
      (dict_get (fst (update cls (RDict ld) (RDict lp) s) ld) k)
    = option_map (content depth s) (dict_get (s ld) k).

End Shared.

(** ** Sample schemas *)

Module Samples.

(** Keyword arguments left at their defaults, and [is_required=True]. *)
Definition plain : attrs := mkAttrs false None (PVal VNone).
Definition required : attrs := mkAttrs true None (PVal VNone).

(** [default=v] and [default=f] for the callable of index [f]. *)
Definition with_default (v : value) : attrs := mkAttrs false None (PVal v).
Definition with_generator (f : nat) : attrs := mkAttrs false None (PFun f).

(** Every callable returns 7. *)
Definition seven (f : nat) (self : field) : value := VInt 7.

(** Every callable returns [None]. *)
Definition nothing (f : nat) (self : field) : value := VNone.

(** A pattern that matches any string. *)
Definition any_string (s : string) : bool := true.

(** [NumberField(min=0, max=10)] *)
Definition number_zero_to_ten : field :=
  NumberField_init plain (Some 0%Q) (Some (10 # 1)).

(** [ListField(inner_type=IntField())] *)
Definition list_of_int : field :=
  ListField plain (Some (IntField_init plain None None)).

(** [{a: default 5, b: default = fn returning 7, c: no default}] *)
Definition abc : schema :=
  [("a", Field (with_default (VInt 5)));
   ("b", Field (with_generator 0));
   ("c", Field plain)].

(** A nested-schema field with a literal default, over a model with no
    fields. *)
Definition nested_literal : schema :=
  [("a", DefinedDictField (with_default (VDict [("x", VInt 1)])) [])].

(** [a] as a plain map field, and as a nested-schema field over a model
    that declares [b] and [c]. *)
Definition a_map : schema := [("a", DictField plain)].
Definition a_nested : schema :=
  [("a", DefinedDictField plain
           [("b", IntField_init plain None None);
            ("c", IntField_init plain None None)])].

(** A class with a nested-schema field [n] over a model that declares [x]
    with default 1 and [y] with no default. *)
Definition inner_model : schema :=
  [("x", IntField_init (with_default (VInt 1)) None None);
   ("y", IntField_init plain None None)].
Definition outer : schema :=
  [("n", DefinedDictField (with_default (VDict [])) inner_model);
   ("s", StringField (with_generator 0) None)].

(** The flags of [clean] all flipped from their defaults. *)
Definition flipped : flags := mkFlags false false true true.

(** A class with two plain map fields. *)
Definition xy_maps : schema :=
  [("x", DictField plain); ("y", DictField plain)].

(** [D = {b: 1}; document = {x: D, y: D}; patch = {x: {c: 2}}]: the
    document at location 0, the patch at 1, [D] at 2, the dictionary of the
    patch at 3. *)
Definition shared_store : Shared.store :=
  fun l =>
    match l with
    | 0 => [("x", Shared.RDict 2); ("y", Shared.RDict 2)]
    | 1 => [("x", Shared.RDict 3)]
    | 2 => [("b", Shared.RInt 1)]
    | 3 => [("c", Shared.RInt 2)]
    | _ => []
    end%nat.

(** [document = {x: {b: 1}, y: {b: 1}, q: 7}] with two different
    dictionaries under [x] and [y] (locations 2 and 4), and
    [patch = {x: {c: 2}, zz: 0}]. *)
Definition separate_store : Shared.store :=
  fun l =>
    match l with
    | 0 => [("x", Shared.RDict 2); ("y", Shared.RDict 4);
            ("q", Shared.RInt 7)]
    | 1 => [("x", Shared.RDict 3); ("zz", Shared.RInt 0)]
    | 2 => [("b", Shared.RInt 1)]
    | 3 => [("c", Shared.RInt 2)]
    | 4 => [("b", Shared.RInt 1)]
    | _ => []
    end%nat.

End Samples.

(** * Properties *)

(** ** Dictionaries *)

Section DictFacts.

Context {V : Type}.
Implicit Types (d : dict V) (k : string) (v : V).

Lemma dict_get_set_eq d k v : dict_get (dict_set d k v) k = Some v.
Proof.
  induction d as [|[k' v'] d IH]; simpl.
  - now rewrite String.eqb_refl.
  - destruct (String.eqb k' k) eqn:E; simpl; rewrite E; auto.
Qed.

Lemma dict_get_set_neq d k k' v :
  k <> k' -> dict_get (dict_set d k v) k' = dict_get d k'.
Proof.
  intros Hne. induction d as [|[k0 v0] d IH]; simpl.
  - apply String.eqb_neq in Hne. now rewrite Hne.
  - destruct (String.eqb k0 k) eqn:E; simpl.
    + apply String.eqb_eq in E. subst k0.
      apply String.eqb_neq in Hne. now rewrite Hne.
    + now rewrite IH.
Qed.

Lemma dict_get_pop_neq d k k' :
  k <> k' -> dict_get (dict_pop d k) k' = dict_get d k'.
Proof.
  intros Hne. induction d as [|[k0 v0] d IH]; simpl; auto.
  destruct (String.eqb k0 k) eqn:E; simpl.
  - apply String.eqb_eq in E. subst k0.
    apply String.eqb_neq in Hne. now rewrite Hne.
  - now rewrite IH.
Qed.

Lemma dict_set_same d k v : dict_get d k = Some v -> dict_set d k v = d.
Proof.
  induction d as [|[k0 v0] d IH]; simpl; [discriminate|].
  destruct (String.eqb k0 k) eqn:E.
  - now intros [= ->].
  - intros H. now rewrite IH.
Qed.

Lemma dict_set_fresh d k v :
  dict_get d k = None -> dict_set d k v = d ++ [(k, v)].
Proof.
  induction d as [|[k0 v0] d IH]; simpl; auto.
  destruct (String.eqb k0 k) eqn:E; [discriminate|].
  intros H. now rewrite IH.
Qed.

Lemma dict_get_app d d' k :
  dict_get (d ++ d') k =
  match dict_get d k with Some v => Some v | None => dict_get d' k end.
Proof.
  induction d as [|[k0 v0] d IH]; simpl; auto.
  now destruct (String.eqb k0 k).
Qed.

Lemma dict_get_filter (p : string -> bool) d k :
  dict_get (filter (fun kv => p (fst kv)) d) k =
  if p k then dict_get d k else None.
Proof.
  induction d as [|[k0 v0] d IH]; simpl.
  - now destruct (p k).
  - destruct (p k0) eqn:P0; simpl; destruct (String.eqb k0 k) eqn:E; auto.
    + apply String.eqb_eq in E. subst k0. now rewrite P0.
    + apply String.eqb_eq in E. subst k0. now rewrite IH, P0.
Qed.

Lemma dict_get_In d k v : dict_get d k = Some v -> In (k, v) d.
Proof.
  induction d as [|[k0 v0] d IH]; simpl; [discriminate|].
  destruct (String.eqb k0 k) eqn:E.
  - apply String.eqb_eq in E. subst k0. intros [= ->]. now left.
  - intros H. right. auto.
Qed.

Lemma dict_get_None_keys d k : dict_get d k = None <-> ~ In k (dict_keys d).
Proof.
  induction d as [|[k0 v0] d IH]; simpl.
  - tauto.
  - destruct (String.eqb k0 k) eqn:E.
    + apply String.eqb_eq in E. subst k0. split; [discriminate | tauto].
    + apply String.eqb_neq in E. rewrite IH. tauto.
Qed.

Lemma dict_mem_true d k : dict_mem d k = true <-> In k (dict_keys d).
Proof.
  unfold dict_mem. destruct (dict_get d k) eqn:E.
  - split; auto. intros _.
    destruct (in_dec string_dec k (dict_keys d)) as [H|H]; auto.
    apply dict_get_None_keys in H. congruence.
  - apply dict_get_None_keys in E. split; [discriminate | tauto].
Qed.

End DictFacts.

Lemma existsb_eqb_In (k : string) (l : list string) :
  existsb (String.eqb k) l = true <-> In k l.
Proof.
  rewrite existsb_exists. split.
  - intros [x [Hin E]]. apply String.eqb_eq in E. now subst.
  - intros H. exists k. split; auto. apply String.eqb_refl.
Qed.

Lemma unique_keys_cons {V} (k : string) (v : V) (d : dict V) :
  unique_keys ((k, v) :: d) = true <->
  dict_get d k = None /\ unique_keys d = true.
Proof.
  unfold unique_keys. simpl. rewrite andb_true_iff, negb_true_iff.
  rewrite dict_get_None_keys, <- existsb_eqb_In.
  destruct (existsb (String.eqb k) (dict_keys d)); intuition congruence.
Qed.

(** ** The nested loops are the class methods of the nested model *)

Lemma get_default_value_nested call a model :
  get_default_value call (DefinedDictField a model) =
  VDict (make_default call model).
Proof.
  unfold make_default. simpl. f_equal.
  generalize (@nil (string * value)).
  induction model as [|[k d] model IH]; intros acc; simpl; auto.
Qed.

Lemma update_field_nested a model existing value :
  update_field (DefinedDictField a model) existing value =
  update model existing value.
Proof.
  unfold update, handlers_of. simpl. f_equal.
  induction model as [|[k d] model IH]; simpl; auto.
  now rewrite IH.
Qed.

Lemma clean_key_nested call a model key document fl nested :
  dict_get document key = Some (VDict nested) ->
  clean_key call (DefinedDictField a model) key document fl =
  dict_set document key (VDict (clean call model nested default_flags)).
Proof.
  intros H. simpl. rewrite H. simpl. do 3 f_equal.
  unfold clean. simpl. f_equal.
  generalize nested.
  induction model as [|[k d] model IH]; intros acc; simpl; auto.
Qed.

Lemma field_errors_nested a model key document parent value error :
  py_contains document key = Ok true ->
  py_get document key = Ok value ->
  get_error (DefinedDictField a model) value = Ok error ->
  field_errors (DefinedDictField a model) key document parent =
  gen_seq
    match error with
    | Some (kind, v) => gen_yield (Rec3 (key_string parent key) kind v)
    | None => gen_stop
    end
    (_get_document_errors model value (Some (key_string parent key))).
Proof.
  intros Hc Hg He. simpl field_errors. rewrite Hc, Hg.
  simpl in He. rewrite He. f_equal.
  induction model as [|[k d] model IH]; simpl; auto.
  now rewrite IH.
Qed.

(** ** Field checks *)

Lemma Qltb_lt (x y : Q) : Qltb x y = true <-> (x < y)%Q.
Proof.
  unfold Qltb. rewrite negb_true_iff. split.
  - intros H. apply Qnot_le_lt. intros Hle.
    apply Qle_bool_iff in Hle. congruence.
  - intros H. destruct (Qle_bool y x) eqn:E; auto.
    apply Qle_bool_iff in E. exfalso. now apply (Qlt_not_le x y).
Qed.

Lemma Field_get_error_no_choices self value :
  choices self = None ->
  is_valid_type self value = true ->
  Field_get_error self value = Ok None.
Proof.
  intros Hc Hv. unfold Field_get_error. now rewrite Hv, Hc.
Qed.

Lemma NumberField_get_error_range self mn mx v q :
  choices self = None ->
  is_valid_type self v = true ->
  num_of v = Some q ->
  NumberField_get_error self (Some mn) (Some mx) v =
  Ok (if Qltb q mn || Qle_bool mx q
      then Some ("value (out of range)", v) else None).
Proof.
  intros Hc Hv Hq. unfold NumberField_get_error.
  rewrite Field_get_error_no_choices by assumption. simpl.
  assert (is_None v = false) as -> by (destruct v; simpl in *; congruence).
  unfold py_lt, py_ge. rewrite Hq. simpl.
  destruct (Qltb q mn); simpl; auto.
  destruct (Qle_bool mx q); auto.
Qed.

(** C3.  A number field ([NumberField], [IntField] or [FloatField]) built
    with no choices and both bounds, checked on a number of a type it
    accepts: [get_error] returns the out-of-range error exactly when the
    value is below [min] or at or above [max], and returns no error exactly
    otherwise. *)
Theorem number_range_check :
  forall (init : attrs -> option Q -> option Q -> field) (a : attrs)
         (mn mx : Q) (v : value) (q : Q),
    In init [NumberField_init; IntField_init; FloatField_init] ->
    attr_choices a = None ->
    num_of v = Some q ->
    is_valid_type (init a (Some mn) (Some mx)) v = true ->
    (get_error (init a (Some mn) (Some mx)) v
       = Ok (Some ("value (out of range)", v)) <-> (q < mn \/ mx <= q)%Q) /\
    (get_error (init a (Some mn) (Some mx)) v = Ok None
       <-> ~ (q < mn \/ mx <= q)%Q).
Proof.
  intros init a mn mx v q Hin Hc Hq Hv.
  assert (get_error (init a (Some mn) (Some mx)) v =
          Ok (if Qltb q mn || Qle_bool mx q
              then Some ("value (out of range)", v) else None)) as ->.
  { simpl in Hin.
    destruct Hin as [<-|[<-|[<-|[]]]];
      unfold NumberField_init, IntField_init, FloatField_init, number_bound in *;
      rewrite Hc in *; simpl get_error;
      apply NumberField_get_error_range; auto. }
  destruct (Qltb q mn) eqn:Hlt; simpl.
  - apply Qltb_lt in Hlt. split; split; auto; try discriminate.
    intros H. exfalso. apply H. now left.
  - assert (~ (q < mn)%Q) as Hn
        by (intros H; apply Qltb_lt in H; congruence).
    destruct (Qle_bool mx q) eqn:Hle.
    + apply Qle_bool_iff in Hle. split; split; auto; try discriminate.
      intros H. exfalso. apply H. now right.
    + assert (~ (mx <= q)%Q) as Hn'
          by (intros H; apply Qle_bool_iff in H; congruence).
      split; split; try discriminate; auto.
      * intros [H|H]; contradiction.
      * intros _ [H|H]; contradiction.
Qed.

(** With [min=0] and [max=10]: 10 is out of range, 9 is accepted, -1 is out
    of range. *)
Lemma number_range_check_witness :
  get_error Samples.number_zero_to_ten (VInt 10)
    = Ok (Some ("value (out of range)", VInt 10)) /\
  get_error Samples.number_zero_to_ten (VInt 9) = Ok None /\
  get_error Samples.number_zero_to_ten (VInt (-1))
    = Ok (Some ("value (out of range)", VInt (-1))).
Proof.
  split; [|split].
  - apply (number_range_check NumberField_init Samples.plain 0 (10 # 1)
             (VInt 10) (inject_Z 10));
      [simpl; auto | reflexivity | reflexivity | reflexivity |].
    right. unfold Qle. simpl. lia.
  - apply (number_range_check NumberField_init Samples.plain 0 (10 # 1)
             (VInt 9) (inject_Z 9));
      [simpl; auto | reflexivity | reflexivity | reflexivity |].
    intros [H|H]; unfold Qlt, Qle in H; simpl in H; lia.
  - apply (number_range_check NumberField_init Samples.plain 0 (10 # 1)
             (VInt (-1)) (inject_Z (-1)));
      [simpl; auto | reflexivity | reflexivity | reflexivity |].
    left. unfold Qlt. simpl. lia.
Defined.

Lemma IntField_get_error_bool (a : attrs) (mn mx : option Q) (b : bool) :
  attr_choices a = None ->
  get_error (IntField a mn mx) (VBool b) = Ok None \/
  get_error (IntField a mn mx) (VBool b)
    = Ok (Some ("value (out of range)", VBool b)).
Proof.
  intros Hc. simpl get_error. unfold NumberField_get_error.
  rewrite Field_get_error_no_choices by (auto; reflexivity).
  cbn [bind is_None]. unfold py_lt, py_ge. cbn [num_of].
  destruct mn as [mn|]; cbn [bind].
  - destruct (Qltb _ mn); auto.
    destruct mx as [mx|]; cbn [bind]; auto.
    destruct (Qle_bool mx _); auto.
  - destruct mx as [mx|]; cbn [bind]; auto.
    destruct (Qle_bool mx _); auto.
Qed.

Lemma single_field_errors (key : string) (self : field) (value : value) :
  is_DefinedDictField self = false ->
  _get_document_errors [(key, self)] (VDict [(key, value)]) None =
  match get_error self value with
  | Raise e => gen_raise e
  | Ok (Some (kind, v)) => ([Rec3 key kind v], None)
  | Ok None => gen_stop
  end.
Proof.
  intros Hn.
  assert (H : field_errors self key (VDict [(key, value)]) None =
              match get_error self value with
              | Raise e => gen_raise e
              | Ok (Some (kind, v)) => ([Rec3 key kind v], None)
              | Ok None => gen_stop
              end).
  { destruct self; try discriminate Hn;
      cbn [field_errors py_contains py_get]; unfold dict_mem;
      cbn [dict_get]; rewrite String.eqb_refl;
      match goal with |- context [get_error ?f ?v] =>
        destruct (get_error f v) as [[[kind v']|]|e] end; reflexivity. }
  cbn [_get_document_errors]. rewrite H.
  destruct (get_error self value) as [[[kind v']|]|e]; reflexivity.
Qed.

(** C10.  An [IntField] with no choices accepts a boolean as an instance of
    its type: [is_valid_type] is true, [get_error] returns without a type
    error (it returns no error, or the range error when bounds are set and
    the boolean, read as 0 or 1, is outside them), and a document with a
    boolean under the key of such a field gets no type record. *)
Theorem int_field_accepts_bool :
  forall (req : bool) (dflt : pyobj) (mn mx : option Q) (b : bool)
         (key : string),
    let self := IntField_init (mkAttrs req None dflt) mn mx in
    is_valid_type self (VBool b) = true /\
    (get_error self (VBool b) = Ok None \/
     get_error self (VBool b) = Ok (Some ("value (out of range)", VBool b))) /\
    (forall path v,
        ~ In (Rec3 path "type" v)
             (fst (_get_document_errors [(key, self)]
                     (VDict [(key, VBool b)]) None))) /\
    (forall l,
        get_document_errors
          [(key, IntField_init (mkAttrs req None dflt) None None)]
          (VDict [(key, VBool b)]) = Ok l ->
        l = []).
Proof.
  intros req dflt mn mx b key self.
  assert (Hself : self = IntField (mkAttrs req None dflt) mn mx) by reflexivity.
  split; [reflexivity|]. split.
  - rewrite Hself. now apply IntField_get_error_bool.
  - split.
    + intros path v. rewrite single_field_errors by reflexivity.
      destruct (IntField_get_error_bool (mkAttrs req None dflt) mn mx b eq_refl)
        as [E|E]; rewrite Hself, E; cbn; intuition discriminate.
    + intros l. unfold get_document_errors.
      rewrite single_field_errors by reflexivity. cbn.
      now intros [= <-].
Qed.

(** C2, on the code.  [ListField.get_error] raises [NameError] on every
    value whose parent check returns, whatever the inner type: for a list
    of integers with one string in it the inner field reports the type
    error, and the list field raises instead of returning that error. *)
Theorem list_field_get_error_raises :
  (forall a inner_type value r,
      Field_get_error (ListField a inner_type) value = Ok r ->
      get_error (ListField a inner_type) value = Raise NameError) /\
  get_error (IntField_init Samples.plain None None) (VStr "x")
    = Ok (Some ("type", VStr "x")) /\
  get_error Samples.list_of_int (VList [VInt 1; VStr "x"]) = Raise NameError /\
  get_document_errors [("l", Samples.list_of_int)]
    (VDict [("l", VList [VInt 1; VStr "x"])]) = Raise NameError.
Proof.
  split; [|repeat split; reflexivity].
  intros a inner_type value r H. simpl. now rewrite H.
Qed.

(** C1, on the code.  Validation raises: a list field raises [NameError] on
    every value (or the exception of its parent check), a string field with
    a regex and no choices raises [TypeError] on [None], and
    [get_document_errors] and [is_valid] let these exceptions through.  So
    do a [NumberField] with bounds on a value that is not a number, and a
    nested-schema field whose value is not a dictionary: its type record is
    yielded, and the descent into the value then raises. *)
Theorem validation_raises :
  (forall a inner_type value,
      exists e, get_error (ListField a inner_type) value = Raise e) /\
  (forall req dflt regex,
      get_error (StringField (mkAttrs req None dflt) (Some regex)) VNone
        = Raise TypeError) /\
  get_document_errors [("tags", Samples.list_of_int)]
    (VDict [("tags", VList [VInt 1])]) = Raise NameError /\
  is_valid [("tags", Samples.list_of_int)]
    (VDict [("tags", VList [VInt 1])]) = Raise NameError /\
  get_document_errors
    [("name", StringField Samples.plain (Some Samples.any_string))]
    (VDict [("name", VNone)]) = Raise TypeError /\
  is_valid [("name", StringField Samples.plain (Some Samples.any_string))]
    (VDict [("name", VNone)]) = Raise TypeError /\
  get_error Samples.number_zero_to_ten (VStr "x") = Raise TypeError /\
  _get_document_errors [("n", DefinedDictField Samples.plain Samples.inner_model)]
    (VDict [("n", VInt 5)]) None
  = ([Rec3 "n" "type" (VInt 5)], Some TypeError).
Proof.
  split; [|split; [|repeat split; reflexivity]].
  - intros a inner_type value. simpl.
    destruct (Field_get_error (ListField a inner_type) value);
      simpl; eauto.
  - intros req dflt regex. reflexivity.
Qed.

(** C4, on the code.  A required field that is absent is not reported when a
    field before it in the table raises: with a list field first and the key
    of the list present, [get_document_errors] and [is_valid] both raise
    [NameError]. *)
Theorem required_lost_when_field_raises :
  let cls := [("tags", ListField Samples.plain None);
              ("name", StringField Samples.required None)] in
  let document := VDict [("tags", VList [])] in
  is_required (StringField Samples.required None) = true /\
  dict_mem [("tags", VList [])] "name" = false /\
  get_document_errors cls document = Raise NameError /\
  is_valid cls document = Raise NameError.
Proof.
  repeat split; reflexivity.
Qed.

(** ** Required fields, when nothing raises *)

Lemma gen_seq_no_raise (g1 g2 : gen) :
  snd (gen_seq g1 g2) = None ->
  snd g1 = None /\ snd g2 = None /\ fst (gen_seq g1 g2) = fst g1 ++ fst g2.
Proof.
  destruct g1 as [l1 [e1|]], g2 as [l2 e2]; simpl; [discriminate|auto].
Qed.

Lemma field_errors_absent definition key d parent :
  dict_mem d key = false ->
  field_errors definition key (VDict d) parent =
  if is_required definition
  then gen_yield (Rec2 (key_string parent key) "required") else gen_stop.
Proof.
  intros H. destruct definition; cbn [field_errors py_contains]; now rewrite H.
Qed.

(** The part of C4 that the code keeps: when the generator runs to its end
    without raising, a required field whose key is absent has its
    [required] record among the errors, and [is_valid] returns false. *)
Lemma required_reported_without_raise :
  forall (cls : schema) (d : dict value) (key : string) (definition : field),
    In (key, definition) cls ->
    is_required definition = true ->
    dict_mem d key = false ->
    snd (_get_document_errors cls (VDict d) None) = None ->
    In (Rec2 key "required") (fst (_get_document_errors cls (VDict d) None)) /\
    get_document_errors cls (VDict d)
      = Ok (fst (_get_document_errors cls (VDict d) None)) /\
    is_valid cls (VDict d) = Ok false.
Proof.
  intros cls d key definition Hin Hreq Habs Hok.
  assert (Hrec : In (Rec2 key "required")
                    (fst (_get_document_errors cls (VDict d) None))).
  { induction cls as [|[k f] cls IH]; [contradiction|].
    cbn [_get_document_errors] in *.
    apply gen_seq_no_raise in Hok. destruct Hok as (H1 & H2 & ->).
    apply in_or_app. destruct Hin as [[= -> ->]|Hin].
    - left. rewrite field_errors_absent by assumption.
      rewrite Hreq. simpl. auto.
    - right. auto. }
  split; [exact Hrec|]. unfold get_document_errors, is_valid.
  destruct (_get_document_errors cls (VDict d) None) as [l e].
  simpl in *. subst e. split; auto.
  destruct l; [contradiction|reflexivity].
Qed.

(** ** make_default *)

Lemma make_default_fold call (cls : schema) (acc : dict value) (key : string) :
  unique_keys cls = true ->
  dict_get (fold_left (make_default_step call) cls acc) key =
  match dict_get cls key with
  | Some definition =>
      if default_is_None definition then dict_get acc key
      else Some (get_default_value call definition)
  | None => dict_get acc key
  end.
Proof.
  revert acc. induction cls as [|[k d] cls IH]; intros acc Hu; simpl; auto.
  apply unique_keys_cons in Hu. destruct Hu as [Hk Hu].
  rewrite IH by assumption. unfold make_default_step. simpl.
  destruct (String.eqb k key) eqn:E.
  - apply String.eqb_eq in E. subst k. rewrite Hk.
    destruct (default_is_None d); simpl; auto.
    apply dict_get_set_eq.
  - apply String.eqb_neq in E.
    assert (Hacc : dict_get (if negb (default_is_None d)
                             then dict_set acc k (get_default_value call d)
                             else acc) key = dict_get acc key).
    { destruct (default_is_None d); simpl; auto.
      now apply dict_get_set_neq. }
    now rewrite Hacc.
Qed.

Lemma make_default_get call (cls : schema) (key : string) :
  unique_keys cls = true ->
  dict_get (make_default call cls) key =
  match dict_get cls key with
  | Some definition =>
      if default_is_None definition then None
      else Some (get_default_value call definition)
  | None => None
  end.
Proof.
  intros Hu. unfold make_default. rewrite make_default_fold by assumption.
  reflexivity.
Qed.

(** C5, as amended.  [make_default] binds exactly the keys of the fields
    with a configured default.  Under the key of a nested-schema field it
    stores the nested model's [make_default()], whatever the configured
    default is; under any other key it stores a literal default as it is,
    or the result of calling a callable default on the field itself. *)
Theorem make_default_entries :
  forall (call : nat -> field -> value) (cls : schema) (key : string),
    unique_keys cls = true ->
    dict_get (make_default call cls) key =
    match dict_get cls key with
    | None => None
    | Some definition =>
        if default_is_None definition then None
        else
          match definition with
          | DefinedDictField _ model => Some (VDict (make_default call model))
          | _ =>
              match default definition with
              | PVal v => Some v
              | PFun f => Some (call f definition)
              end
          end
    end.
Proof.
  intros call cls key Hu. rewrite make_default_get by assumption.
  destruct (dict_get cls key) as [definition|]; auto.
  destruct (default_is_None definition); auto.
  destruct definition;
    try (rewrite get_default_value_nested; reflexivity);
    simpl; unfold Field_get_default_value;
    match goal with |- context [default ?f] => destruct (default f) end;
    reflexivity.
Qed.

(** For [{a: default 5, b: default = fn returning 7, c: no default}] the
    result is [{a: 5, b: 7}], and [c] is absent. *)
Lemma make_default_entries_witness :
  make_default Samples.seven Samples.abc = [("a", VInt 5); ("b", VInt 7)] /\
  dict_get (make_default Samples.seven Samples.abc) "a" = Some (VInt 5) /\
  dict_get (make_default Samples.seven Samples.abc) "b" = Some (VInt 7) /\
  dict_get (make_default Samples.seven Samples.abc) "c" = None.
Proof.
  split; [reflexivity|].
  split; [|split].
  - rewrite (make_default_entries Samples.seven Samples.abc "a");
      reflexivity.
  - rewrite (make_default_entries Samples.seven Samples.abc "b");
      reflexivity.
  - rewrite (make_default_entries Samples.seven Samples.abc "c");
      reflexivity.
Defined.

(** C5, as stated, fails on a nested-schema field with a literal default:
    the literal is not stored, the nested model's default document is. *)
Lemma make_default_nested_literal_not_stored :
  ~ make_default_as_stated Samples.seven Samples.nested_literal.
Proof.
  intros H. specialize (H "a"). discriminate H.
Qed.

Lemma make_default_as_stated_abc :
  make_default_as_stated Samples.seven Samples.abc.
Proof.
  intros key. rewrite make_default_get by reflexivity.
  unfold Samples.abc. cbn [dict_get].
  destruct (String.eqb "a" key); [reflexivity|].
  destruct (String.eqb "b" key); [reflexivity|].
  destruct (String.eqb "c" key); reflexivity.
Qed.

(** ** update *)

Lemma handlers_of_get (cls : schema) (key : string) :
  dict_get (handlers_of cls) key = option_map update_field (dict_get cls key).
Proof.
  induction cls as [|[k d] cls IH]; simpl; auto.
  destruct (String.eqb k key); auto.
Qed.

Lemma handlers_of_mem (cls : schema) (key : string) :
  dict_mem (handlers_of cls) key = dict_mem cls key.
Proof.
  unfold dict_mem. rewrite handlers_of_get.
  now destruct (dict_get cls key).
Qed.

Lemma dict_mem_cons {V} (k0 : string) (v0 : V) (d : dict V) (k : string) :
  dict_mem ((k0, v0) :: d) k = String.eqb k0 k || dict_mem d k.
Proof.
  unfold dict_mem. simpl. now destruct (String.eqb k0 k).
Qed.

(** One turn of the loop leaves a dictionary a dictionary, and touches no
    key but its own. *)
Lemma update_item_frame handlers d key value :
  exists d',
    fst (update_item handlers (VDict d) key value) = VDict d' /\
    forall k, key <> k -> dict_get d' k = dict_get d k.
Proof.
  unfold update_item.
  destruct (dict_get handlers key) as [h|]; [|exists d; auto].
  destruct (dict_get d key) as [existing|].
  - assert (Hset : forall x, exists d',
               VDict (dict_set d key x) = VDict d' /\
               forall k, key <> k -> dict_get d' k = dict_get d k).
    { intros x. exists (dict_set d key x). split; auto.
      intros k Hk. now apply dict_get_set_neq. }
    destruct existing; try (destruct (h _ value) as [x e]); simpl; apply Hset.
  - exists (dict_set d key value). split; auto.
    intros k Hk. now apply dict_get_set_neq.
Qed.

Lemma update_item_undeclared handlers document key value :
  dict_mem handlers key = false ->
  update_item handlers document key value = (document, None).
Proof.
  unfold dict_mem, update_item.
  destruct (dict_get handlers key); [discriminate|reflexivity].
Qed.

Lemma update_items_frame handlers items :
  forall d, exists d',
    fst (update_items handlers (VDict d) items) = VDict d' /\
    forall k, dict_mem items k && dict_mem handlers k = false ->
              dict_get d' k = dict_get d k.
Proof.
  induction items as [|[key value] items IH]; intros d; simpl.
  - exists d. auto.
  - destruct (dict_mem handlers key) eqn:Hm.
    + destruct (update_item_frame handlers d key value) as (d1 & H1 & F1).
      destruct (update_item handlers (VDict d) key value) as [doc1 [e|]];
        simpl in H1; subst doc1.
      * exists d1. split; auto. intros k Hk. apply F1. intros ->.
        rewrite dict_mem_cons, String.eqb_refl, Hm in Hk. discriminate.
      * destruct (IH d1) as (d' & H' & F'). exists d'. split; auto.
        intros k Hk. rewrite dict_mem_cons in Hk.
        destruct (String.eqb key k) eqn:E.
        -- apply String.eqb_eq in E. subst k. rewrite Hm in Hk.
           simpl in Hk. discriminate.
        -- simpl in Hk. rewrite F' by assumption.
           apply F1. now apply String.eqb_neq.
    + rewrite update_item_undeclared by assumption.
      destruct (IH d) as (d' & H' & F'). exists d'. split; auto.
      intros k Hk. apply F'. rewrite dict_mem_cons in Hk.
      destruct (String.eqb key k) eqn:E; simpl in Hk; auto.
      apply String.eqb_eq in E. subst k. rewrite Hm. apply andb_false_r.
Qed.

Lemma update_items_declared_only handlers items :
  forall document,
    update_items handlers document items =
    update_items handlers document
      (filter (fun kv => dict_mem handlers (fst kv)) items).
Proof.
  induction items as [|[key value] items IH]; intros document; simpl; auto.
  destruct (dict_mem handlers key) eqn:Hm; simpl.
  - destruct (update_item handlers document key value) as [doc1 [e|]]; auto.
  - rewrite update_item_undeclared by assumption. apply IH.
Qed.

(** The frame of [update] on documents that are trees, where no
    dictionary sits under two keys.  [update] of a document by a patch
    equals [update] by the patch
    restricted to the keys that the class declares (the other patch keys
    are ignored, with no error); and, whether the call returns or raises,
    the document it leaves is a dictionary whose binding at every key that
    is not both in the patch and declared is the one it had. *)
Theorem update_frame :
  forall (cls : schema) (d patch : dict value),
    update cls (VDict d) (VDict patch) =
    update cls (VDict d)
      (VDict (filter (fun kv => dict_mem cls (fst kv)) patch)) /\
    exists d',
      fst (update cls (VDict d) (VDict patch)) = VDict d' /\
      forall k, dict_mem patch k && dict_mem cls k = false ->
                dict_get d' k = dict_get d k.
Proof.
  intros cls d patch. unfold update, update_with. split.
  - rewrite update_items_declared_only. f_equal.
    apply filter_ext. intros [k v]. simpl. apply handlers_of_mem.
  - destruct (update_items_frame (handlers_of cls) patch d) as (d' & H & F).
    exists d'. split; auto. intros k Hk. apply F.
    now rewrite handlers_of_mem.
Qed.

(** Patch [{a: 1, zz: 2}] on [{a: 0, zz: 9, q: 3}] with only [a] declared:
    [zz] and [q] keep their values. *)
Lemma update_frame_witness :
  exists d',
    fst (update [("a", IntField_init Samples.plain None None)]
           (VDict [("a", VInt 0); ("zz", VInt 9); ("q", VInt 3)])
           (VDict [("a", VInt 1); ("zz", VInt 2)])) = VDict d' /\
    dict_get d' "zz" = Some (VInt 9) /\ dict_get d' "q" = Some (VInt 3).
Proof.
  destruct (update_frame [("a", IntField_init Samples.plain None None)]
              [("a", VInt 0); ("zz", VInt 9); ("q", VInt 3)]
              [("a", VInt 1); ("zz", VInt 2)]) as (_ & d' & H & F).
  exists d'. split; [exact H|]. split.
  - rewrite (F "zz"); reflexivity.
  - rewrite (F "q"); reflexivity.
Defined.

Lemma update_item_declared handlers d key value h existing :
  dict_get handlers key = Some h ->
  dict_get d key = Some existing ->
  existing <> VNone ->
  update_item handlers (VDict d) key value =
  (VDict (dict_set d key (fst (h existing value))), snd (h existing value)).
Proof.
  intros Hh Hd Hn. unfold update_item. rewrite Hh, Hd.
  destruct (h existing value) as [x e].
  destruct existing; try reflexivity. congruence.
Qed.

Lemma update_items_at handlers items :
  forall d d' key value h existing,
    unique_keys items = true ->
    dict_get items key = Some value ->
    dict_get handlers key = Some h ->
    dict_get d key = Some existing ->
    existing <> VNone ->
    update_items handlers (VDict d) items = (VDict d', None) ->
    exists r, h existing value = (r, None) /\ dict_get d' key = Some r.
Proof.
  induction items as [|[k0 v0] items IH];
    intros d d' key value h existing Hu Hv Hh Hd Hn Hrun; [discriminate|].
  apply unique_keys_cons in Hu. destruct Hu as [Hfresh Hu].
  simpl in Hv, Hrun. destruct (String.eqb k0 key) eqn:E.
  - apply String.eqb_eq in E. subst k0. injection Hv as ->.
    rewrite (update_item_declared _ _ _ _ _ _ Hh Hd Hn) in Hrun.
    destruct (h existing value) as [r [e|]]; simpl in Hrun; [discriminate|].
    exists r. split; auto.
    destruct (update_items_frame handlers items (dict_set d key r))
      as (d2 & H2 & F2).
    rewrite Hrun in H2. simpl in H2. injection H2 as <-.
    rewrite F2.
    + apply dict_get_set_eq.
    + unfold dict_mem at 1. now rewrite Hfresh.
  - apply String.eqb_neq in E.
    destruct (update_item_frame handlers d k0 v0) as (d1 & H1 & F1).
    destruct (update_item handlers (VDict d) k0 v0) as [doc1 [e|]];
      [discriminate|]. simpl in H1. subst doc1.
    apply (IH d1 d' key value h existing); auto.
    now rewrite F1.
Qed.

(** C7.  In a call of [update] that returns, at a declared key of the patch
    whose value in the document is not [None]: for a nested-schema field
    the value left under the key is what [update] of the nested model
    leaves of the existing value, given the patch value; for any other
    field, when both values are dictionaries, it is the existing dictionary
    after [dict.update] with the patch dictionary, one level deep; and
    otherwise it is the patch value. *)
Theorem update_declared_key :
  forall (cls : schema) (d patch d' : dict value) (key : string)
         (definition : field) (existing value : value),
    unique_keys patch = true ->
    dict_get cls key = Some definition ->
    dict_get patch key = Some value ->
    dict_get d key = Some existing ->
    existing <> VNone ->
    update cls (VDict d) (VDict patch) = (VDict d', None) ->
    match definition with
    | DefinedDictField _ model =>
        exists r, update model existing value = (r, None) /\
                  dict_get d' key = Some r
    | _ =>
        match existing, value with
        | VDict e, VDict v => dict_get d' key = Some (VDict (dict_update e v))
        | _, _ => dict_get d' key = Some value
        end
    end.
Proof.
  intros cls d patch d' key definition existing value Hu Hc Hp Hd Hn Hrun.
  assert (Hh : dict_get (handlers_of cls) key = Some (update_field definition))
    by (rewrite handlers_of_get, Hc; reflexivity).
  destruct (update_items_at (handlers_of cls) patch d d' key value
              (update_field definition) existing Hu Hp Hh Hd Hn Hrun)
    as (r & Hr & Hget).
  destruct definition;
    try (rewrite update_field_nested in Hr; exists r; split; assumption);
    simpl in Hr; destruct value, existing;
    injection Hr as <-; exact Hget.
Qed.

(** [merge({a:{b:1}}, {a:{c:2}})] leaves [{b:1, c:2}] under [a], for [a] a
    nested-schema field and for [a] a plain map field; and for a plain map
    field the merge stops at one level: [{a:{b:{x:1}}}] patched with
    [{a:{b:{y:2}}}] leaves [{b:{y:2}}] under [a]. *)
Lemma update_declared_key_witness :
  (update Samples.a_nested (VDict [("a", VDict [("b", VInt 1)])])
     (VDict [("a", VDict [("c", VInt 2)])])
   = (VDict [("a", VDict [("b", VInt 1); ("c", VInt 2)])], None) /\
   update Samples.a_map (VDict [("a", VDict [("b", VInt 1)])])
     (VDict [("a", VDict [("c", VInt 2)])])
   = (VDict [("a", VDict [("b", VInt 1); ("c", VInt 2)])], None)) /\
  (exists r,
      update [("b", IntField_init Samples.plain None None);
              ("c", IntField_init Samples.plain None None)]
        (VDict [("b", VInt 1)]) (VDict [("c", VInt 2)]) = (r, None) /\
      dict_get [("a", VDict [("b", VInt 1); ("c", VInt 2)])] "a" = Some r) /\
  dict_get [("a", VDict [("b", VInt 1); ("c", VInt 2)])] "a"
    = Some (VDict (dict_update [("b", VInt 1)] [("c", VInt 2)])) /\
  dict_get [("a", VDict [("b", VDict [("y", VInt 2)])])] "a"
    = Some (VDict (dict_update [("b", VDict [("x", VInt 1)])]
                               [("b", VDict [("y", VInt 2)])])).
Proof.
  split; [split; reflexivity|]. split; [|split].
  - exact (update_declared_key Samples.a_nested
             [("a", VDict [("b", VInt 1)])] [("a", VDict [("c", VInt 2)])]
             [("a", VDict [("b", VInt 1); ("c", VInt 2)])] "a" _
             (VDict [("b", VInt 1)]) (VDict [("c", VInt 2)])
             eq_refl eq_refl eq_refl eq_refl
             ltac:(discriminate) eq_refl).
  - exact (update_declared_key Samples.a_map
             [("a", VDict [("b", VInt 1)])] [("a", VDict [("c", VInt 2)])]
             [("a", VDict [("b", VInt 1); ("c", VInt 2)])] "a" _
             (VDict [("b", VInt 1)]) (VDict [("c", VInt 2)])
             eq_refl eq_refl eq_refl eq_refl
             ltac:(discriminate) eq_refl).
  - exact (update_declared_key Samples.a_map
             [("a", VDict [("b", VDict [("x", VInt 1)])])]
             [("a", VDict [("b", VDict [("y", VInt 2)])])]
             [("a", VDict [("b", VDict [("y", VInt 2)])])] "a" _
             (VDict [("b", VDict [("x", VInt 1)])])
             (VDict [("b", VDict [("y", VInt 2)])])
             eq_refl eq_refl eq_refl eq_refl
             ltac:(discriminate) eq_refl).
Defined.

Lemma dict_update_get {V} (v e : dict V) (k : string) :
  unique_keys v = true ->
  dict_get (dict_update e v) k =
  match dict_get v k with Some x => Some x | None => dict_get e k end.
Proof.
  unfold dict_update. revert e.
  induction v as [|[k0 x0] v IH]; intros e Hu; simpl; auto.
  apply unique_keys_cons in Hu. destruct Hu as [Hfresh Hu].
  rewrite IH by assumption.
  destruct (String.eqb k0 k) eqn:E.
  - apply String.eqb_eq in E. subst k0. rewrite Hfresh.
    apply dict_get_set_eq.
  - apply String.eqb_neq in E. destruct (dict_get v k); auto.
    now apply dict_get_set_neq.
Qed.

(** ** clean *)

Section Clean.

Variable call : nat -> field -> value.

Lemma clean_key_cases definition key document fl :
  clean_key call definition key document fl = document \/
  (exists v, clean_key call definition key document fl
             = dict_set document key v) \/
  clean_key call definition key document fl = dict_pop document key.
Proof.
  destruct definition; cbn [clean_key];
    destruct (dict_get document key) as [v|];
    repeat match goal with
           | |- context [if ?b then _ else _] => destruct b
           end;
    try destruct v; eauto.
Qed.

Lemma clean_key_other definition key document fl k :
  key <> k ->
  dict_get (clean_key call definition key document fl) k = dict_get document k.
Proof.
  intros Hk.
  destruct (clean_key_cases definition key document fl) as [->|[[v ->]| ->]];
    auto using dict_get_set_neq, dict_get_pop_neq.
Qed.

Lemma clean_loop_other (cls : schema) fl k :
  forall document,
    dict_get cls k = None ->
    dict_get (fold_left (fun doc kd => clean_key call (snd kd) (fst kd) doc fl)
                cls document) k = dict_get document k.
Proof.
  induction cls as [|[k0 d0] cls IH]; intros document Hk; simpl in *; auto.
  destruct (String.eqb k0 k) eqn:E; [discriminate|].
  apply String.eqb_neq in E. rewrite IH by assumption.
  now apply clean_key_other.
Qed.

Lemma clean_loop_nested (cls : schema) fl key a model :
  forall document nested,
    unique_keys cls = true ->
    dict_get cls key = Some (DefinedDictField a model) ->
    dict_get document key = Some (VDict nested) ->
    dict_get (fold_left (fun doc kd => clean_key call (snd kd) (fst kd) doc fl)
                cls document) key
    = Some (VDict (clean call model nested default_flags)).
Proof.
  induction cls as [|[k0 d0] cls IH]; intros document nested Hu Hc Hd;
    [discriminate|].
  apply unique_keys_cons in Hu. destruct Hu as [Hfresh Hu].
  simpl in Hc |- *. destruct (String.eqb k0 key) eqn:E.
  - apply String.eqb_eq in E. subst k0. injection Hc as ->.
    rewrite clean_loop_other by assumption.
    rewrite (clean_key_nested _ _ _ _ _ _ _ Hd).
    apply dict_get_set_eq.
  - apply String.eqb_neq in E. apply IH; auto.
    rewrite clean_key_other by assumption. exact Hd.
Qed.

(** C8.  Whatever flags [clean] is called with, a declared nested-schema
    field whose value in the document is a dictionary ends up bound to that
    dictionary cleaned by the nested model with the default flags
    ([set_default=True], [remove_undefined=True], [allow_none=False],
    [populate_none=False]). *)
Theorem clean_nested_uses_default_flags :
  forall (cls : schema) (document : dict value) (fl : flags) (key : string)
         (a : attrs) (model : schema) (nested : dict value),
    unique_keys cls = true ->
    dict_get cls key = Some (DefinedDictField a model) ->
    dict_get document key = Some (VDict nested) ->
    dict_get (clean call cls document fl) key
    = Some (VDict (clean call model nested default_flags)).
Proof.
  intros cls document fl key a model nested Hu Hc Hd. unfold clean.
  pose proof (clean_loop_nested cls fl key a model document nested Hu Hc Hd)
    as H.
  destruct (remove_undefined fl); auto.
  unfold pop_undefined. rewrite dict_get_filter.
  unfold dict_mem. now rewrite Hc.
Qed.

End Clean.

(** With every flag flipped by the caller, the nested document
    [{y: None, junk: 3}] still gets its default [x] set, its [None] value
    popped and its undeclared key removed; cleaned with the caller's flags
    it would have been left as it is. *)
Lemma clean_nested_uses_default_flags_witness :
  dict_get
    (clean Samples.seven Samples.outer
       [("n", VDict [("y", VNone); ("junk", VInt 3)])] Samples.flipped) "n"
  = Some (VDict [("x", VInt 1)]) /\
  clean Samples.seven Samples.inner_model
    [("y", VNone); ("junk", VInt 3)] default_flags = [("x", VInt 1)] /\
  clean Samples.seven Samples.inner_model
    [("y", VNone); ("junk", VInt 3)] Samples.flipped
  = [("y", VNone); ("junk", VInt 3); ("x", VNone)].
Proof.
  split; [|split; reflexivity].
  exact (clean_nested_uses_default_flags Samples.seven Samples.outer
           [("n", VDict [("y", VNone); ("junk", VInt 3)])] Samples.flipped
           "n" _ Samples.inner_model [("y", VNone); ("junk", VInt 3)]
           eq_refl eq_refl eq_refl).
Defined.

(** ** Induction on the nesting of models *)

Lemma height_nested (a a' : attrs) (model : schema) (key : string)
    (cls : schema) :
  In (key, DefinedDictField a model) cls ->
  (height (DefinedDictField a' model) < height (DefinedDictField a' cls))%nat.
Proof.
  intros Hin. change (height (DefinedDictField a' model))
    with (height (DefinedDictField a model)).
  cbn [height]. apply -> Nat.succ_lt_mono.
  induction cls as [|[k d] cls IH]; [contradiction|].
  destruct Hin as [[= -> ->]|Hin].
  - cbn [height]. lia.
  - specialize (IH Hin). cbn [height] in *. lia.
Qed.

Lemma schema_nested_ind (Q : schema -> Prop) :
  (forall cls,
      (forall key a model, In (key, DefinedDictField a model) cls -> Q model) ->
      Q cls) ->
  forall cls, Q cls.
Proof.
  intros step cls.
  remember (height (DefinedDictField Samples.plain cls)) as n eqn:Hn.
  assert (Hle : (height (DefinedDictField Samples.plain cls) <= n)%nat) by lia.
  clear Hn. revert cls Hle.
  induction n as [|n IH]; intros cls Hle.
  - cbn [height] in Hle. lia.
  - apply step. intros key a model Hin. apply IH.
    pose proof (height_nested a Samples.plain model key cls Hin). lia.
Qed.

Lemma every_model_nested (p : schema -> bool) (a : attrs) (model : schema) :
  every_model p (DefinedDictField a model) = every_schema p model.
Proof.
  unfold every_schema. cbn [every_model]. f_equal.
  induction model as [|[k d] model IH]; simpl; auto.
  now rewrite IH.
Qed.

Lemma every_schema_nested (p : schema -> bool) (cls : schema) key a model :
  every_schema p cls = true ->
  In (key, DefinedDictField a model) cls ->
  every_schema p model = true.
Proof.
  unfold every_schema at 1. rewrite andb_true_iff, forallb_forall.
  intros [_ H] Hin. specialize (H _ Hin). cbn [snd] in H.
  now rewrite every_model_nested in H.
Qed.

Lemma unique_keys_get {V} (d : dict V) (k : string) (v : V) :
  unique_keys d = true -> In (k, v) d -> dict_get d k = Some v.
Proof.
  induction d as [|[k0 v0] d IH]; intros Hu Hin; [contradiction|].
  apply unique_keys_cons in Hu. destruct Hu as [Hfresh Hu]. simpl.
  destruct Hin as [[= -> ->]|Hin].
  - now rewrite String.eqb_refl.
  - destruct (String.eqb k0 k) eqn:E; auto.
    apply String.eqb_eq in E. subst k0.
    apply dict_get_None_keys in Hfresh. exfalso. apply Hfresh.
    unfold dict_keys. now apply (in_map fst) in Hin.
Qed.

Lemma filter_all {A} (p : A -> bool) (l : list A) :
  (forall x, In x l -> p x = true) -> filter p l = l.
Proof.
  induction l as [|x l IH]; intros H; simpl; auto.
  rewrite (H x) by now left. f_equal. apply IH. intros y Hy. apply H.
  now right.
Qed.

Lemma fold_left_fixed {A B} (f : A -> B -> A) (l : list B) (a : A) :
  (forall b, In b l -> f a b = a) -> fold_left f l a = a.
Proof.
  induction l as [|b l IH]; intros H; simpl; auto.
  rewrite (H b) by now left. apply IH. intros b' Hb'. apply H. now right.
Qed.

(** ** clean after make_default *)

Section CleanDefault.

Variable call : nat -> field -> value.

Lemma clean_key_absent definition key document fl :
  dict_get document key = None ->
  clean_key call definition key document fl =
  if negb (default_is_None definition) && set_default fl
  then dict_set document key (get_default_value call definition)
  else if populate_none fl then dict_set document key VNone
  else document.
Proof.
  intros H. destruct definition; cbn [clean_key]; now rewrite H.
Qed.

Lemma clean_key_present_plain definition key document fl v :
  dict_get document key = Some v ->
  is_None v && negb (allow_none fl) = false ->
  is_DefinedDictField definition = false ->
  clean_key call definition key document fl = document.
Proof.
  intros H Hn Hd.
  destruct definition; try discriminate Hd;
    cbn [clean_key]; rewrite H, Hn; now destruct v.
Qed.

Lemma make_default_keys_declared (cls : schema) :
  unique_keys cls = true ->
  pop_undefined cls (make_default call cls) = make_default call cls.
Proof.
  intros Hu. unfold pop_undefined. apply filter_all. intros [k v] Hin.
  simpl. unfold dict_mem.
  assert (Hk : dict_get (make_default call cls) k <> None).
  { intros Hnone. apply dict_get_None_keys in Hnone. apply Hnone.
    unfold dict_keys. now apply (in_map fst) in Hin. }
  rewrite make_default_get in Hk by assumption.
  destruct (dict_get cls k); congruence.
Qed.

Lemma clean_make_default_fixed :
  forall cls,
    unique_keys_everywhere cls = true ->
    no_null_defaults call cls = true ->
    clean call cls (make_default call cls) default_flags = make_default call cls.
Proof.
  induction cls as [cls IH] using schema_nested_ind. intros Hu Hn.
  assert (Hu0 : unique_keys cls = true).
  { unfold unique_keys_everywhere, every_schema in Hu.
    now apply andb_true_iff in Hu. }
  unfold clean. cbn [remove_undefined default_flags].
  rewrite fold_left_fixed; [now apply make_default_keys_declared|].
  intros [key definition] Hin. cbn [fst snd].
  pose proof (unique_keys_get cls key definition Hu0 Hin) as Hget.
  pose proof (make_default_get call cls key Hu0) as Hd. rewrite Hget in Hd.
  destruct (default_is_None definition) eqn:Hdef.
  - rewrite clean_key_absent by assumption. now rewrite Hdef.
  - assert (Hnn : is_None (get_default_value call definition) = false).
    { unfold no_null_defaults, every_schema in Hn.
      apply andb_true_iff in Hn. destruct Hn as [Hn _].
      rewrite forallb_forall in Hn. specialize (Hn _ Hin).
      unfold null_default in Hn. simpl in Hn. rewrite Hdef in Hn.
      simpl in Hn. now apply negb_true_iff in Hn. }
    destruct (is_DefinedDictField definition) eqn:Hk.
    + destruct definition; try discriminate Hk.
      rewrite get_default_value_nested in Hd.
      rewrite (clean_key_nested _ _ _ _ _ _ _ Hd).
      rewrite (IH key a model Hin).
      * now apply dict_set_same.
      * now apply (every_schema_nested _ cls key a model).
      * now apply (every_schema_nested _ cls key a model).
    + apply (clean_key_present_plain _ _ _ _ _ Hd); auto.
      now rewrite Hnn.
Qed.

(** C9.  For a class whose field tables are dictionaries and in which no
    configured default has the value [None], at any depth of nested models:
    [clean] with the default flags leaves [make_default()] as it is, so
    cleaning it a second time gives the same document as cleaning it
    once. *)
Theorem clean_make_default_idempotent :
  forall cls : schema,
    unique_keys_everywhere cls = true ->
    no_null_defaults call cls = true ->
    let once := clean call cls (make_default call cls) default_flags in
    let twice := clean call cls once default_flags in
    twice = once /\ once = make_default call cls.
Proof.
  intros cls Hu Hn once twice. subst twice once.
  rewrite !clean_make_default_fixed by assumption. auto.
Qed.

End CleanDefault.

(** The condition on defaults is needed: with a callable default that
    returns [None], the first [clean] pops the key and the second sets it
    again. *)
Lemma clean_make_default_null_default :
  let cls := [("s", StringField (Samples.with_generator 0) None)] in
  no_null_defaults Samples.nothing cls = false /\
  make_default Samples.nothing cls = [("s", VNone)] /\
  clean Samples.nothing cls (make_default Samples.nothing cls) default_flags
  = [] /\
  clean Samples.nothing cls
    (clean Samples.nothing cls (make_default Samples.nothing cls) default_flags)
    default_flags
  = [("s", VNone)].
Proof.
  repeat split; reflexivity.
Qed.

(** On the sample class with a nested model: both cleanings give
    [{n: {x: 1}, s: 7}]. *)
Lemma clean_make_default_idempotent_witness :
  clean Samples.seven Samples.outer
    (clean Samples.seven Samples.outer
       (make_default Samples.seven Samples.outer) default_flags)
    default_flags
  = clean Samples.seven Samples.outer
      (make_default Samples.seven Samples.outer) default_flags /\
  clean Samples.seven Samples.outer
    (make_default Samples.seven Samples.outer) default_flags
  = [("n", VDict [("x", VInt 1)]); ("s", VInt 7)].
Proof.
  destruct (clean_make_default_idempotent Samples.seven Samples.outer
              eq_refl eq_refl) as [H1 H2].
  split; [exact H1|]. rewrite H2. reflexivity.
Defined.

(** * Further properties of the field checks *)

(** X1.  Except for a list field, a value that fails the type check gets
    the type error of [Field.get_error], whatever the choices, the regex or
    the bounds of the field are: the subclasses return the parent's error
    before their own checks. *)
Theorem wrong_type_reported_first :
  forall (self : field) (v : value),
    is_ListField self = false ->
    is_valid_type self v = false ->
    get_error self v = Ok (Some ("type", v)).
Proof.
  intros self v Hl Hv.
  assert (Hf : Field_get_error self v = Ok (Some ("type", v)))
    by (unfold Field_get_error; now rewrite Hv).
  destruct self; try discriminate Hl; cbn [get_error];
    unfold StringField_get_error, NumberField_get_error;
    rewrite ?Hf; reflexivity.
Qed.

(** An integer field with choices and bounds on a float, a boolean field on
    the integer 1, a string field with a regex on an integer. *)
Lemma wrong_type_reported_first_witness :
  get_error
    (IntField (mkAttrs true (Some (ChoiceList [VFloat (1 # 2)])) (PVal VNone))
       (Some 0%Q) (Some 1%Q)) (VFloat (1 # 2))
  = Ok (Some ("type", VFloat (1 # 2))) /\
  get_error (BoolField Samples.plain) (VInt 1) = Ok (Some ("type", VInt 1)) /\
  get_error (StringField Samples.plain (Some Samples.any_string)) (VInt 3)
  = Ok (Some ("type", VInt 3)).
Proof.
  split; [|split].
  - apply (wrong_type_reported_first
             (IntField (mkAttrs true (Some (ChoiceList [VFloat (1 # 2)]))
                          (PVal VNone)) (Some 0%Q) (Some 1%Q))
             (VFloat (1 # 2))); reflexivity.
  - apply (wrong_type_reported_first (BoolField Samples.plain) (VInt 1));
      reflexivity.
  - apply (wrong_type_reported_first
             (StringField Samples.plain (Some Samples.any_string)) (VInt 3));
      reflexivity.
Defined.

(** X2.  [None] is accepted by every field with no choices that is neither
    a list field nor a string field with a regex, also when the field is
    required and whatever its bounds are. *)
Theorem none_is_accepted :
  forall self : field,
    choices self = None ->
    is_ListField self = false ->
    regex_of self = None ->
    get_error self VNone = Ok None.
Proof.
  intros self Hc Hl Hr.
  assert (Hf : Field_get_error self VNone = Ok None).
  { apply Field_get_error_no_choices; auto.
    unfold is_valid_type. now destruct (field_type self). }
  destruct self; try discriminate Hl; cbn [get_error];
    unfold StringField_get_error, NumberField_get_error;
    rewrite ?Hf; cbn in Hr |- *; try rewrite Hr; reflexivity.
Qed.

Lemma none_is_accepted_witness :
  get_error (IntField Samples.required (Some 0%Q) (Some 1%Q)) VNone = Ok None /\
  get_error (StringField Samples.required None) VNone = Ok None /\
  get_error (DefinedDictField Samples.required Samples.inner_model) VNone
  = Ok None.
Proof.
  split; [|split].
  - apply (none_is_accepted (IntField Samples.required (Some 0%Q) (Some 1%Q)));
      reflexivity.
  - apply (none_is_accepted (StringField Samples.required None)); reflexivity.
  - apply (none_is_accepted
             (DefinedDictField Samples.required Samples.inner_model));
      reflexivity.
Defined.

(** X3.  A number field built with choices has no range check: the bounds
    given to the constructor have no effect, and [get_error] is the check
    of [Field] (type, then membership in the choices). *)
Theorem number_choices_disable_bounds :
  forall (init : attrs -> option Q -> option Q -> field) (a : attrs)
         (c : choices_t) (mn mx : option Q) (v : value),
    In init [NumberField_init; IntField_init; FloatField_init] ->
    attr_choices a = Some c ->
    init a mn mx = init a None None /\
    get_error (init a mn mx) v = Field_get_error (init a mn mx) v.
Proof.
  intros init a c mn mx v Hin Hc. simpl in Hin.
  destruct Hin as [<-|[<-|[<-|[]]]];
    unfold NumberField_init, IntField_init, FloatField_init, number_bound;
    rewrite Hc; (split; [reflexivity|]);
    cbn [get_error]; unfold NumberField_get_error;
    match goal with |- context [Field_get_error ?f ?x] =>
      destruct (Field_get_error f x) as [[e|]|e] end;
    cbn [bind]; try reflexivity; destruct (is_None v); reflexivity.
Qed.

(** With choices [[1; 50]] and bounds 0 and 10, 50 is accepted and 5 is a
    value error, not a range error. *)
Lemma number_choices_disable_bounds_witness :
  let a := mkAttrs false (Some (ChoiceList [VInt 1; VInt 50])) (PVal VNone) in
  get_error (IntField_init a (Some 0%Q) (Some (10 # 1))) (VInt 50) = Ok None /\
  get_error (IntField_init a (Some 0%Q) (Some (10 # 1))) (VInt 5)
  = Ok (Some ("value", VInt 5)).
Proof.
  intros a. split.
  - destruct (number_choices_disable_bounds IntField_init a
                (ChoiceList [VInt 1; VInt 50]) (Some 0%Q) (Some (10 # 1))
                (VInt 50)) as [_ ->]; [simpl; auto | reflexivity | reflexivity].
  - destruct (number_choices_disable_bounds IntField_init a
                (ChoiceList [VInt 1; VInt 50]) (Some 0%Q) (Some (10 # 1))
                (VInt 5)) as [_ ->]; [simpl; auto | reflexivity | reflexivity].
Defined.

(** X4.  A number field with no choices and one bound only checks that
    bound: with [min] alone the range error is returned exactly below
    [min], with [max] alone exactly at or above [max]; with neither bound
    every number of an accepted type passes. *)
Theorem number_one_sided_bounds :
  forall (init : attrs -> option Q -> option Q -> field) (a : attrs)
         (b : Q) (v : value) (q : Q),
    In init [NumberField_init; IntField_init; FloatField_init] ->
    attr_choices a = None ->
    num_of v = Some q ->
    is_valid_type (init a None None) v = true ->
    (get_error (init a (Some b) None) v
       = Ok (Some ("value (out of range)", v)) <-> (q < b)%Q) /\
    (get_error (init a None (Some b)) v
       = Ok (Some ("value (out of range)", v)) <-> (b <= q)%Q) /\
    get_error (init a None None) v = Ok None.
Proof.
  intros init a b v q Hin Hc Hq Hv.
  assert (Hnone : is_None v = false)
    by (destruct v; simpl in *; congruence).
  assert (Hall : forall mn mx,
             get_error (init a mn mx) v =
             Ok (if match mn with Some m => Qltb q m | None => false end
                 then Some ("value (out of range)", v)
                 else if match mx with Some m => Qle_bool m q | None => false end
                      then Some ("value (out of range)", v) else None)).
  { intros mn mx. simpl in Hin.
    destruct Hin as [<-|[<-|[<-|[]]]];
      unfold NumberField_init, IntField_init, FloatField_init, number_bound in *;
      rewrite Hc in *; cbn [get_error]; unfold NumberField_get_error;
      (rewrite Field_get_error_no_choices; [|assumption|exact Hv]);
      cbn [bind]; rewrite Hnone; unfold py_lt, py_ge; rewrite Hq;
      destruct mn as [m|]; cbn [bind];
      try destruct (Qltb q m); try reflexivity;
      destruct mx as [m'|]; cbn [bind];
      try destruct (Qle_bool m' q); reflexivity. }
  rewrite !Hall. split; [|split; [|reflexivity]].
  - destruct (Qltb q b) eqn:E.
    + apply Qltb_lt in E. tauto.
    + split; [discriminate|]. intros H. apply Qltb_lt in H. congruence.
  - destruct (Qle_bool b q) eqn:E.
    + apply Qle_bool_iff in E. tauto.
    + split; [discriminate|]. intros H. apply Qle_bool_iff in H. congruence.
Qed.

Lemma number_one_sided_bounds_witness :
  get_error (IntField_init Samples.plain (Some 0%Q) None) (VInt (-1))
  = Ok (Some ("value (out of range)", VInt (-1))) /\
  get_error (IntField_init Samples.plain None (Some 0%Q)) (VInt 0)
  = Ok (Some ("value (out of range)", VInt 0)) /\
  get_error (IntField_init Samples.plain None None) (VInt 7) = Ok None.
Proof.
  split; [|split].
  - apply (number_one_sided_bounds IntField_init Samples.plain 0 (VInt (-1))
             (inject_Z (-1))); [simpl; auto | reflexivity..|].
    unfold Qlt. simpl. lia.
  - apply (number_one_sided_bounds IntField_init Samples.plain 0 (VInt 0)
             (inject_Z 0)); [simpl; auto | reflexivity..|].
    unfold Qle. simpl. lia.
  - apply (number_one_sided_bounds IntField_init Samples.plain 0 (VInt 7)
             (inject_Z 7)); [simpl; auto | reflexivity..].
Defined.

(** X5.  A map field or a nested-schema field whose choices are a mapping
    cannot check a dictionary: the membership test hashes the value, and
    [get_error] raises [TypeError] on every dictionary. *)
Theorem mapping_choices_raise_on_dict :
  forall (a : attrs) (c : list (value * value)) (model : schema)
         (d : list (string * value)),
    attr_choices a = Some (ChoiceDict c) ->
    get_error (DictField a) (VDict d) = Raise TypeError /\
    get_error (DefinedDictField a model) (VDict d) = Raise TypeError.
Proof.
  intros a c model d Hc.
  split; cbn [get_error]; unfold Field_get_error, choices;
    cbn [is_valid_type field_type is_None isinstance existsb isinstance1
         negb orb attrs_of]; rewrite Hc; reflexivity.
Qed.

Lemma mapping_choices_raise_on_dict_witness :
  get_error
    (DictField (mkAttrs false (Some (ChoiceDict [(VStr "k", VInt 1)]))
                  (PVal VNone))) (VDict [])
  = Raise TypeError.
Proof.
  apply (mapping_choices_raise_on_dict
           (mkAttrs false (Some (ChoiceDict [(VStr "k", VInt 1)])) (PVal VNone))
           [(VStr "k", VInt 1)] [] []).
  reflexivity.
Defined.

(** * Further properties of validation *)

(** X6.  [is_valid] returns [True] exactly when [get_document_errors]
    returns the empty list; and whenever [get_document_errors] returns,
    [is_valid] returns whether its list is empty. *)
Theorem is_valid_iff_no_errors :
  forall (cls : schema) (document : value),
    (is_valid cls document = Ok true <->
     get_document_errors cls document = Ok []) /\
    (forall l, get_document_errors cls document = Ok l ->
               is_valid cls document
               = Ok (match l with [] => true | _ :: _ => false end)).
Proof.
  intros cls document. unfold is_valid, get_document_errors.
  destruct (_get_document_errors cls document None) as [[|r l] [e|]];
    split; try split; try discriminate; try reflexivity;
    intros; match goal with H : Ok _ = Ok _ |- _ => injection H as <- end;
    reflexivity.
Qed.

Lemma empty_document_gen (cls : schema) (parent : option string) :
  _get_document_errors cls (VDict []) parent =
  (map (fun kd => Rec2 (key_string parent (fst kd)) "required")
     (filter (fun kd => is_required (snd kd)) cls), None).
Proof.
  induction cls as [|[k d] cls IH]; [reflexivity|].
  cbn [_get_document_errors filter snd]. rewrite IH.
  rewrite field_errors_absent by reflexivity.
  destruct (is_required d); reflexivity.
Qed.

(** X7.  On the empty document validation never raises, whatever the
    fields are: it returns one [required] record per required field, in the
    order of the field table, and nothing else. *)
Theorem empty_document_errors :
  forall cls : schema,
    get_document_errors cls (VDict []) =
    Ok (map (fun kd => Rec2 (fst kd) "required")
          (filter (fun kd => is_required (snd kd)) cls)) /\
    is_valid cls (VDict []) =
    Ok (negb (existsb (fun kd => is_required (snd kd)) cls)).
Proof.
  intros cls. unfold get_document_errors, is_valid.
  rewrite empty_document_gen. split; [reflexivity|].
  induction cls as [|[k d] cls IH]; [reflexivity|].
  cbn [filter existsb snd]. destruct (is_required d); [reflexivity|].
  exact IH.
Qed.

Lemma field_errors_same_binding definition key d d' parent :
  dict_get d key = dict_get d' key ->
  field_errors definition key (VDict d) parent =
  field_errors definition key (VDict d') parent.
Proof.
  intros H.
  destruct definition; cbn [field_errors py_contains py_get];
    unfold dict_mem; rewrite H; reflexivity.
Qed.

Lemma get_document_errors_same_bindings (cls : schema) d d' parent :
  (forall k definition, In (k, definition) cls ->
                        dict_get d k = dict_get d' k) ->
  _get_document_errors cls (VDict d) parent =
  _get_document_errors cls (VDict d') parent.
Proof.
  induction cls as [|[k f] cls IH]; intros H; [reflexivity|].
  cbn [_get_document_errors].
  rewrite (field_errors_same_binding f k d d') by (apply (H k f); now left).
  rewrite IH; auto. intros k' f' Hin. apply (H k' f'). now right.
Qed.

(** X8.  Validation reads the document at the declared keys only: the
    records, and the exception if any, are the same on the document with
    its undeclared keys removed. *)
Theorem validation_ignores_undeclared :
  forall (cls : schema) (d : dict value) (parent : option string),
    _get_document_errors cls (VDict d) parent =
    _get_document_errors cls (VDict (pop_undefined cls d)) parent.
Proof.
  intros cls d parent. apply get_document_errors_same_bindings.
  intros k definition Hin. unfold pop_undefined.
  rewrite dict_get_filter.
  assert (dict_mem cls k = true) as ->; [|reflexivity].
  apply dict_mem_true. unfold dict_keys. now apply (in_map fst) in Hin.
Qed.

(** ** Paths of the records *)

Lemma prefix_app (a b : string) : String.prefix a (a ++ b) = true.
Proof.
  induction a as [|c a IH]; simpl.
  - now destruct b.
  - destruct (ascii_dec c c); [exact IH|congruence].
Qed.

Lemma prefix_app_l (a b s : string) :
  String.prefix (a ++ b) s = true -> String.prefix a s = true.
Proof.
  revert s. induction a as [|c a IH]; intros s H.
  - now destruct s.
  - destruct s as [|c' s]; simpl in *; [discriminate|].
    destruct (ascii_dec c c'); [auto|discriminate].
Qed.

Lemma string_app_assoc (a b c : string) : ((a ++ b) ++ c = a ++ (b ++ c))%string.
Proof.
  induction a as [|x a IH]; simpl; [reflexivity|now rewrite IH].
Qed.

Lemma key_string_nested (p key : string) :
  p <> "" -> key_string (Some p) key = ((p ++ ".") ++ key)%string.
Proof.
  intros Hp. destruct p as [|c p]; [congruence|].
  unfold key_string. now rewrite string_app_assoc.
Qed.

Lemma gen_seq_In (g1 g2 : gen) (r : record) :
  In r (fst (gen_seq g1 g2)) -> In r (fst g1) \/ In r (fst g2).
Proof.
  destruct g1 as [l1 [e|]], g2 as [l2 e2]; simpl; auto.
  intros H. now apply in_app_or in H.
Qed.

(** The records of one field: its [required] record, its own error, or a
    record of the nested model, checked under the path of the field. *)
Lemma field_errors_records definition key document parent r :
  In r (fst (field_errors definition key document parent)) ->
  (r = Rec2 (key_string parent key) "required" /\
   py_contains document key = Ok false /\ is_required definition = true) \/
  (exists kind v, r = Rec3 (key_string parent key) kind v) \/
  (exists a model value,
      definition = DefinedDictField a model /\
      py_get document key = Ok value /\
      In r (fst (_get_document_errors model value
                   (Some (key_string parent key))))).
Proof.
  intros H.
  destruct (py_contains document key) as [[|]|e] eqn:Hc.
  - destruct (py_get document key) as [value|e] eqn:Hg.
    + destruct (get_error definition value) as [error|e] eqn:He.
      * assert (Hown : forall g,
                   In r (fst (gen_seq
                     match error with
                     | Some (kind, v) =>
                         gen_yield (Rec3 (key_string parent key) kind v)
                     | None => gen_stop
                     end g)) ->
                   (exists kind v, r = Rec3 (key_string parent key) kind v) \/
                   In r (fst g)).
        { intros g Hg'. apply gen_seq_In in Hg'. destruct Hg' as [Hr|Hr]; auto.
          destruct error as [[kind v]|]; simpl in Hr; [|contradiction].
          destruct Hr as [<-|[]]. left. eauto. }
        destruct definition;
          try (cbn [field_errors] in H; rewrite Hc, Hg in H;
               rewrite He in H;
               apply Hown in H; destruct H as [H|[]]; auto).
        rewrite (field_errors_nested _ _ _ _ _ _ _ Hc Hg He) in H.
        apply Hown in H. destruct H as [H|H]; auto.
        right. right. eauto 6.
      * destruct definition; cbn [field_errors] in H; rewrite Hc, Hg in H;
          rewrite He in H; contradiction.
    + destruct definition; cbn [field_errors] in H; rewrite Hc, Hg in H;
        contradiction.
  - left.
    assert (Hf : field_errors definition key document parent =
                 if is_required definition
                 then gen_yield (Rec2 (key_string parent key) "required")
                 else gen_stop)
      by (destruct definition; cbn [field_errors]; now rewrite Hc).
    rewrite Hf in H. destruct (is_required definition); simpl in H.
    + destruct H as [<-|[]]. auto.
    + contradiction.
  - destruct definition; cbn [field_errors] in H; rewrite Hc in H;
      contradiction.
Qed.

Lemma nested_records_prefixed :
  forall (cls : schema) (document : value) (p : string) (r : record),
    p <> "" ->
    In r (fst (_get_document_errors cls document (Some p))) ->
    String.prefix (p ++ ".") (record_path r) = true.
Proof.
  induction cls as [cls IH] using schema_nested_ind.
  intros document p r Hp.
  assert (Hall : forall fs, incl fs cls ->
             In r (fst (_get_document_errors fs document (Some p))) ->
             String.prefix (p ++ ".") (record_path r) = true).
  { induction fs as [|[k f] fs IHfs]; intros Hincl Hin; [contradiction|].
    cbn [_get_document_errors] in Hin. apply gen_seq_In in Hin.
    destruct Hin as [Hin|Hin].
    - apply field_errors_records in Hin.
      destruct Hin as [(-> & _)|[(kind & v & ->)|(a & model & value & -> & _ & Hin)]].
      + cbn [record_path]. rewrite key_string_nested by assumption.
        apply prefix_app.
      + cbn [record_path]. rewrite key_string_nested by assumption.
        apply prefix_app.
      + assert (Hks : key_string (Some p) k <> "").
        { rewrite key_string_nested by assumption.
          destruct p; [congruence|discriminate]. }
        apply (IH k a model) in Hin; auto.
        * rewrite key_string_nested in Hin by assumption.
          rewrite string_app_assoc in Hin.
          now apply prefix_app_l in Hin.
        * apply Hincl. now left.
    - apply IHfs; auto. intros x Hx. apply Hincl. now right. }
  apply Hall. apply incl_refl.
Qed.

(** X9.  For a field whose path is not the empty string, every record
    that the check of the field yields carries the path of that field, or
    a path that extends it with a dot: the records of a nested model, at
    any depth, stay under the path of the field that holds the model.
    (The path is empty only for a field named [""] with no parent path,
    or with the empty one; [key_string] then takes the empty path of the
    field for no parent at all.) *)
Theorem records_stay_under_field_path :
  forall (definition : field) (key : string) (document : value)
         (parent : option string) (r : record),
    key_string parent key <> "" ->
    In r (fst (field_errors definition key document parent)) ->
    record_path r = key_string parent key \/
    String.prefix (key_string parent key ++ ".") (record_path r) = true.
Proof.
  intros definition key document parent r Hks Hin.
  apply field_errors_records in Hin.
  destruct Hin as [(-> & _)|[(kind & v & ->)|(a & model & value & -> & _ & Hin)]];
    [left; reflexivity | left; reflexivity | right].
  now apply (nested_records_prefixed model value).
Qed.

(** A required field missing two models down is reported at
    [outer.mid.leaf]. *)
Lemma records_stay_under_field_path_witness :
  let leaf := [("leaf", IntField_init Samples.required None None)] in
  let mid := [("mid", DefinedDictField Samples.plain leaf)] in
  let document := VDict [("outer", VDict [("mid", VDict [])])] in
  fst (field_errors (DefinedDictField Samples.plain mid) "outer" document None)
  = [Rec2 "outer.mid.leaf" "required"] /\
  String.prefix "outer." "outer.mid.leaf" = true.
Proof.
  intros leaf mid document. split; [reflexivity|].
  destruct (records_stay_under_field_path
              (DefinedDictField Samples.plain mid) "outer" document None
              (Rec2 "outer.mid.leaf" "required")) as [H|H].
  - discriminate.
  - simpl. auto.
  - discriminate H.
  - exact H.
Defined.

Lemma prefix_longer (a b : string) :
  String.prefix (a ++ b) a = true -> b = "".
Proof.
  induction a as [|c a IH]; simpl.
  - now destruct b.
  - destruct (ascii_dec c c); [exact IH|discriminate].
Qed.

(** X10.  [required] means absent: for a field whose path is not the empty
    string, the check of the field when its key is in the document, with
    whatever value ([None] included), never yields the [required] record
    of that field. *)
Theorem present_key_never_required :
  forall (definition : field) (key : string) (d : dict value)
         (parent : option string),
    key_string parent key <> "" ->
    dict_mem d key = true ->
    ~ In (Rec2 (key_string parent key) "required")
         (fst (field_errors definition key (VDict d) parent)).
Proof.
  intros definition key d parent Hks Hmem Hin.
  apply field_errors_records in Hin.
  destruct Hin as [(_ & Hc & _)|[(kind & v & H)|(a & model & value & _ & _ & Hin)]].
  - simpl in Hc. congruence.
  - discriminate H.
  - apply nested_records_prefixed in Hin; auto.
    cbn [record_path] in Hin. apply prefix_longer in Hin. discriminate Hin.
Qed.

Lemma present_key_never_required_witness :
  ~ In (Rec2 "name" "required")
       (fst (field_errors (StringField Samples.required None) "name"
               (VDict [("name", VNone)]) None)) /\
  fst (field_errors (StringField Samples.required None) "name"
         (VDict [("name", VNone)]) None) = [].
Proof.
  split; [|reflexivity].
  apply (present_key_never_required (StringField Samples.required None)
           "name" [("name", VNone)] None).
  - discriminate.
  - reflexivity.
Defined.

(** * Further properties of make_default and clean *)

Section MoreDefaults.

Variable call : nat -> field -> value.

Lemma make_default_fold_order (cls : schema) :
  forall acc : dict value,
    unique_keys cls = true ->
    (forall k, In k (dict_keys cls) -> dict_get acc k = None) ->
    fold_left (make_default_step call) cls acc =
    acc ++ map (fun kd => (fst kd, get_default_value call (snd kd)))
             (filter (fun kd => negb (default_is_None (snd kd))) cls).
Proof.
  induction cls as [|[k d] cls IH]; intros acc Hu Hacc; simpl.
  - now rewrite app_nil_r.
  - apply unique_keys_cons in Hu. destruct Hu as [Hfresh Hu].
    unfold make_default_step at 2. cbn [fst snd].
    destruct (default_is_None d); cbn [negb].
    + apply IH; auto. intros k' Hk'. apply Hacc. now right.
    + rewrite IH; auto.
      * rewrite dict_set_fresh by (apply Hacc; now left).
        now rewrite <- app_assoc.
      * intros k' Hk'. rewrite dict_get_set_neq.
        -- apply Hacc. now right.
        -- intros ->. apply dict_get_None_keys in Hfresh. contradiction.
Qed.

(** X11.  The document of [make_default] lists the fields with a
    configured default in the order of the field table, each with its
    default value. *)
Theorem make_default_in_table_order :
  forall cls : schema,
    unique_keys cls = true ->
    make_default call cls =
    map (fun kd => (fst kd, get_default_value call (snd kd)))
      (filter (fun kd => negb (default_is_None (snd kd))) cls).
Proof.
  intros cls Hu. unfold make_default.
  now rewrite make_default_fold_order.
Qed.

Lemma dict_get_pop_eq {V} (d : dict V) (k : string) :
  dict_get (dict_pop d k) k = None.
Proof.
  induction d as [|[k0 v0] d IH]; simpl; auto.
  destruct (String.eqb k0 k) eqn:E; simpl; [auto|now rewrite E].
Qed.

(** What [clean_key] leaves under its own key depends on the document
    through the binding of that key only. *)
Lemma clean_key_own_binding definition key doc1 doc2 fl :
  dict_get doc1 key = dict_get doc2 key ->
  dict_get (clean_key call definition key doc1 fl) key =
  dict_get (clean_key call definition key doc2 fl) key.
Proof.
  intros H.
  destruct definition; cbn [clean_key]; rewrite H;
    destruct (dict_get doc2 key) as [v|] eqn:E;
    repeat match goal with
           | |- context [if ?b then _ else _] => destruct b
           end;
    try destruct v;
    rewrite ?dict_get_set_eq, ?dict_get_pop_eq; congruence.
Qed.

(** The first loop of [clean] handles a declared key once, by the turn of
    its own entry; the removal of the undeclared keys keeps it. *)
Lemma clean_at_declared (cls : schema) fl key definition :
  forall document,
    unique_keys cls = true ->
    dict_get cls key = Some definition ->
    dict_get (clean call cls document fl) key
    = dict_get (clean_key call definition key document fl) key.
Proof.
  intros document Hu Hc.
  assert (Hloop : dict_get
            (fold_left (fun doc kd => clean_key call (snd kd) (fst kd) doc fl)
               cls document) key
          = dict_get (clean_key call definition key document fl) key).
  { clear - Hu Hc. revert document.
    induction cls as [|[k0 d0] cls IH]; intros document; [discriminate|].
    apply unique_keys_cons in Hu. destruct Hu as [Hfresh Hu].
    simpl in Hc |- *. destruct (String.eqb k0 key) eqn:E.
    - apply String.eqb_eq in E. subst k0. injection Hc as ->.
      now rewrite clean_loop_other.
    - apply String.eqb_neq in E. rewrite IH by assumption.
      apply clean_key_own_binding. now apply clean_key_other. }
  unfold clean. destruct (remove_undefined fl); auto.
  unfold pop_undefined. rewrite dict_get_filter.
  unfold dict_mem. now rewrite Hc.
Qed.

(** X12.  [clean] at a key that the class does not declare: the key is
    removed when [remove_undefined] is set, and keeps its binding
    otherwise; no undeclared key is ever added. *)
Theorem clean_at_undeclared_key :
  forall (cls : schema) (document : dict value) (fl : flags) (k : string),
    dict_get cls k = None ->
    dict_get (clean call cls document fl) k
    = if remove_undefined fl then None else dict_get document k.
Proof.
  intros cls document fl k Hc. unfold clean.
  destruct (remove_undefined fl).
  - unfold pop_undefined. rewrite dict_get_filter.
    unfold dict_mem. now rewrite Hc.
  - now apply clean_loop_other.
Qed.

(** X13.  [clean] at a declared key that the document lacks: the default
    value is set when the field has a configured default and [set_default]
    is on; otherwise [None] is set when [populate_none] is on; otherwise
    the key stays absent. *)
Theorem clean_at_absent_key :
  forall (cls : schema) (document : dict value) (fl : flags) (key : string)
         (definition : field),
    unique_keys cls = true ->
    dict_get cls key = Some definition ->
    dict_get document key = None ->
    dict_get (clean call cls document fl) key
    = if negb (default_is_None definition) && set_default fl
      then Some (get_default_value call definition)
      else if populate_none fl then Some VNone else None.
Proof.
  intros cls document fl key definition Hu Hc Hd.
  rewrite (clean_at_declared cls fl key definition) by assumption.
  rewrite clean_key_absent by assumption.
  destruct (negb (default_is_None definition) && set_default fl);
    [apply dict_get_set_eq|].
  destruct (populate_none fl); [apply dict_get_set_eq|assumption].
Qed.

(** X14.  [clean] at a declared key whose value is [None]: the key is
    popped unless [allow_none] is on, and the default of the field is not
    put in its place; with [allow_none] the [None] stays. *)
Theorem clean_at_none_value :
  forall (cls : schema) (document : dict value) (fl : flags) (key : string)
         (definition : field),
    unique_keys cls = true ->
    dict_get cls key = Some definition ->
    dict_get document key = Some VNone ->
    dict_get (clean call cls document fl) key
    = if allow_none fl then Some VNone else None.
Proof.
  intros cls document fl key definition Hu Hc Hd.
  rewrite (clean_at_declared cls fl key definition) by assumption.
  destruct definition; cbn [clean_key]; rewrite Hd; cbn [is_None andb];
    destruct (allow_none fl); cbn [negb];
    rewrite ?dict_get_pop_eq; auto.
Qed.


End MoreDefaults.

Lemma make_default_in_table_order_witness :
  make_default Samples.seven Samples.outer
  = [("n", VDict [("x", VInt 1)]); ("s", VInt 7)].
Proof.
  rewrite (make_default_in_table_order Samples.seven Samples.outer);
    reflexivity.
Defined.

(** The undeclared key [q] is removed with the default flags and kept when
    [remove_undefined] is off. *)
Lemma clean_at_undeclared_key_witness :
  dict_get (clean Samples.seven Samples.inner_model [("q", VInt 1)]
              default_flags) "q" = None /\
  dict_get (clean Samples.seven Samples.inner_model [("q", VInt 1)]
              Samples.flipped) "q" = Some (VInt 1).
Proof.
  split.
  - rewrite (clean_at_undeclared_key Samples.seven Samples.inner_model
               [("q", VInt 1)] default_flags "q"); reflexivity.
  - rewrite (clean_at_undeclared_key Samples.seven Samples.inner_model
               [("q", VInt 1)] Samples.flipped "q"); reflexivity.
Defined.

Lemma clean_at_absent_key_witness :
  dict_get (clean Samples.seven Samples.inner_model [] default_flags) "x"
  = Some (VInt 1) /\
  dict_get (clean Samples.seven Samples.inner_model [] default_flags) "y"
  = None /\
  dict_get (clean Samples.seven Samples.inner_model [] Samples.flipped) "x"
  = Some VNone.
Proof.
  split; [|split].
  - rewrite (clean_at_absent_key Samples.seven Samples.inner_model []
               default_flags "x" (IntField_init (Samples.with_default (VInt 1))
                                    None None)); reflexivity.
  - rewrite (clean_at_absent_key Samples.seven Samples.inner_model []
               default_flags "y" (IntField_init Samples.plain None None));
      reflexivity.
  - rewrite (clean_at_absent_key Samples.seven Samples.inner_model []
               Samples.flipped "x" (IntField_init (Samples.with_default (VInt 1))
                                      None None)); reflexivity.
Defined.

(** [{x: None}] cleaned with the default flags loses [x], although [x] has
    the default 1. *)
Lemma clean_at_none_value_witness :
  dict_get (clean Samples.seven Samples.inner_model [("x", VNone)]
              default_flags) "x" = None /\
  clean Samples.seven Samples.inner_model [("x", VNone)] default_flags = [].
Proof.
  split; [|reflexivity].
  rewrite (clean_at_none_value Samples.seven Samples.inner_model
             [("x", VNone)] default_flags "x"
             (IntField_init (Samples.with_default (VInt 1)) None None));
    reflexivity.
Defined.


Section CleanTwice.

Variable call : nat -> field -> value.

(** X16.  [clean] is not idempotent: where a declared key with a
    configured default holds [None], the first [clean] with the default
    flags pops the key, and a second [clean] sets the default value
    there. *)
Theorem clean_none_then_default :
  forall (cls : schema) (document : dict value) (key : string)
         (definition : field),
    unique_keys cls = true ->
    dict_get cls key = Some definition ->
    default_is_None definition = false ->
    dict_get document key = Some VNone ->
    let once := clean call cls document default_flags in
    dict_get once key = None /\
    dict_get (clean call cls once default_flags) key
    = Some (get_default_value call definition).
Proof.
  intros cls document key definition Hu Hc Hdef Hd once.
  assert (Honce : dict_get once key = None).
  { unfold once.
    rewrite (clean_at_declared call cls default_flags key definition)
      by assumption.
    destruct definition; cbn [clean_key]; rewrite Hd; cbn;
      apply dict_get_pop_eq. }
  split; [exact Honce|].
  rewrite (clean_at_declared call cls default_flags key definition)
    by assumption.
  rewrite clean_key_absent by assumption. rewrite Hdef. cbn.
  apply dict_get_set_eq.
Qed.

Lemma clean_key_present_own definition key document fl v :
  dict_get document key = Some v ->
  is_None v = false ->
  exists v', dict_get (clean_key call definition key document fl) key = Some v'
             /\ is_None v' = false.
Proof.
  intros Hd Hv.
  destruct definition; cbn [clean_key]; rewrite Hd, Hv; cbn [andb];
    try (exists v; split; assumption).
  destruct v; try discriminate Hv;
    try (eexists; split; [eassumption|reflexivity]).
  rewrite dict_get_set_eq. eexists; split; reflexivity.
Qed.

(** X17.  After [clean] with the default flags, for a class none of whose
    own fields has a configured default of value [None], no key of the
    document holds [None]. *)
Theorem clean_leaves_no_none :
  forall (cls : schema) (document : dict value) (k : string),
    unique_keys cls = true ->
    forallb (fun kd => negb (null_default call (snd kd))) cls = true ->
    dict_get (clean call cls document default_flags) k <> Some VNone.
Proof.
  intros cls document k Hu Hnn.
  destruct (dict_get cls k) as [definition|] eqn:Hc.
  - rewrite (clean_at_declared call cls default_flags k definition)
      by assumption.
    assert (Hdef : default_is_None definition = false ->
                   is_None (get_default_value call definition) = false).
    { intros Hd. rewrite forallb_forall in Hnn.
      specialize (Hnn _ (dict_get_In _ _ _ Hc)). cbn [snd] in Hnn.
      unfold null_default in Hnn. rewrite Hd in Hnn. cbn in Hnn.
      now apply negb_true_iff in Hnn. }
    destruct (dict_get document k) as [v|] eqn:Hd.
    + destruct (is_None v) eqn:Hv.
      * assert (clean_key call definition k document default_flags
                = dict_pop document k) as ->
          by (destruct definition; cbn [clean_key]; rewrite Hd, Hv;
              reflexivity).
        rewrite dict_get_pop_eq. discriminate.
      * destruct (clean_key_present_own definition k document
                    default_flags v Hd Hv) as (v' & -> & Hv').
        intros [= ->]. discriminate Hv'.
    + rewrite clean_key_absent by assumption. cbn.
      destruct (default_is_None definition) eqn:Hdn; cbn.
      * rewrite Hd. discriminate.
      * rewrite dict_get_set_eq. intros [= E]. rewrite E in Hdef.
        specialize (Hdef eq_refl). discriminate Hdef.
  - unfold clean. cbn. unfold pop_undefined. rewrite dict_get_filter.
    unfold dict_mem. rewrite Hc. discriminate.
Qed.

End CleanTwice.

Lemma clean_none_then_default_witness :
  dict_get (clean Samples.seven Samples.inner_model [("x", VNone)]
              default_flags) "x" = None /\
  dict_get
    (clean Samples.seven Samples.inner_model
       (clean Samples.seven Samples.inner_model [("x", VNone)] default_flags)
       default_flags) "x" = Some (VInt 1).
Proof.
  exact (clean_none_then_default Samples.seven Samples.inner_model
           [("x", VNone)] "x"
           (IntField_init (Samples.with_default (VInt 1)) None None)
           eq_refl eq_refl eq_refl eq_refl).
Defined.

Lemma clean_leaves_no_none_witness :
  dict_get (clean Samples.seven Samples.inner_model
              [("x", VNone); ("y", VNone); ("q", VNone)] default_flags) "y"
  <> Some VNone.
Proof.
  apply (clean_leaves_no_none Samples.seven Samples.inner_model
           [("x", VNone); ("y", VNone); ("q", VNone)] "y"); reflexivity.
Defined.

(** * Further properties of update *)

Lemma update_field_plain_no_raise definition existing value :
  is_DefinedDictField definition = false ->
  snd (update_field definition existing value) = None.
Proof.
  intros H. destruct definition; try discriminate H;
    simpl; destruct value, existing; reflexivity.
Qed.

Lemma update_items_no_raise (handlers : dict handler) items :
  (forall k (h : handler), dict_get handlers k = Some h ->
               forall existing value, snd (h existing value) = None) ->
  forall d, snd (update_items handlers (VDict d) items) = None.
Proof.
  intros Hh. induction items as [|[key value] items IH]; intros d;
    [reflexivity|].
  cbn [update_items].
  destruct (update_item_frame handlers d key value) as (d1 & H1 & _).
  assert (Hs : snd (update_item handlers (VDict d) key value) = None).
  { unfold update_item. destruct (dict_get handlers key) as [h|] eqn:Eh;
      [|reflexivity].
    destruct (dict_get d key) as [existing|]; [|reflexivity].
    specialize (Hh key h Eh existing value).
    destruct existing; try reflexivity;
      destruct (h _ value) as [x e]; exact Hh. }
  destruct (update_item handlers (VDict d) key value) as [doc1 e].
  simpl in H1, Hs. subst doc1 e. apply IH.
Qed.

Lemma update_items_flat_no_raise (cls : schema) (d patch : dict value) :
  flat cls = true ->
  snd (update_items (handlers_of cls) (VDict d) patch) = None.
Proof.
  intros Hflat.
  apply update_items_no_raise. intros k h Hk existing value.
  rewrite handlers_of_get in Hk.
  destruct (dict_get cls k) as [definition|] eqn:Hc; [|discriminate].
  injection Hk as <-. apply update_field_plain_no_raise.
  unfold flat in Hflat. rewrite forallb_forall in Hflat.
  specialize (Hflat _ (dict_get_In _ _ _ Hc)). cbn [snd] in Hflat.
  now apply negb_true_iff in Hflat.
Qed.



Lemma update_item_missing handlers d key value h :
  dict_get handlers key = Some h ->
  dict_get d key = None \/ dict_get d key = Some VNone ->
  update_item handlers (VDict d) key value =
  (VDict (dict_set d key value), None).
Proof.
  intros Hh Hd. unfold update_item. rewrite Hh.
  destruct Hd as [-> | ->]; reflexivity.
Qed.

Lemma update_items_sets handlers items :
  forall d d' key value h,
    unique_keys items = true ->
    dict_get items key = Some value ->
    dict_get handlers key = Some h ->
    dict_get d key = None \/ dict_get d key = Some VNone ->
    update_items handlers (VDict d) items = (VDict d', None) ->
    dict_get d' key = Some value.
Proof.
  induction items as [|[k0 v0] items IH];
    intros d d' key value h Hu Hv Hh Hd Hrun; [discriminate|].
  apply unique_keys_cons in Hu. destruct Hu as [Hfresh Hu].
  simpl in Hv, Hrun. destruct (String.eqb k0 key) eqn:E.
  - apply String.eqb_eq in E. subst k0. injection Hv as ->.
    rewrite (update_item_missing _ _ _ _ _ Hh Hd) in Hrun.
    destruct (update_items_frame handlers items (dict_set d key value))
      as (d2 & H2 & F2).
    rewrite Hrun in H2. simpl in H2. injection H2 as <-.
    rewrite F2.
    + apply dict_get_set_eq.
    + unfold dict_mem at 1. now rewrite Hfresh.
  - apply String.eqb_neq in E.
    destruct (update_item_frame handlers d k0 v0) as (d1 & H1 & F1).
    destruct (update_item handlers (VDict d) k0 v0) as [doc1 [e|]];
      [discriminate|]. simpl in H1. subst doc1.
    apply (IH d1 d' key value h); auto.
    now rewrite F1.
Qed.

(** X19.  In a call of [update] that returns, a declared key of the patch
    that the document lacks, or holds [None] under, ends up bound to the
    patch value itself, for every class of field: a nested-schema field
    gets the patch value with no merge and no check. *)
Theorem update_sets_missing_key :
  forall (cls : schema) (d patch d' : dict value) (key : string)
         (value : value),
    unique_keys patch = true ->
    dict_mem cls key = true ->
    dict_get patch key = Some value ->
    dict_get d key = None \/ dict_get d key = Some VNone ->
    update cls (VDict d) (VDict patch) = (VDict d', None) ->
    dict_get d' key = Some value.
Proof.
  intros cls d patch d' key value Hu Hc Hp Hd Hrun.
  rewrite <- handlers_of_mem in Hc. unfold dict_mem in Hc.
  destruct (dict_get (handlers_of cls) key) as [h|] eqn:Hh; [|discriminate].
  exact (update_items_sets (handlers_of cls) patch d d' key value h
           Hu Hp Hh Hd Hrun).
Qed.

(** A nested-schema key holding [None] takes the patch value [5] as it
    is. *)
Lemma update_sets_missing_key_witness :
  dict_get [("a", VInt 5)] "a" = Some (VInt 5) /\
  update Samples.a_nested (VDict [("a", VNone)]) (VDict [("a", VInt 5)])
  = (VDict [("a", VInt 5)], None).
Proof.
  split; [|reflexivity].
  apply (update_sets_missing_key Samples.a_nested [("a", VNone)]
           [("a", VInt 5)] [("a", VInt 5)] "a" (VInt 5));
    try reflexivity.
  right. reflexivity.
Defined.

Lemma update_item_keeps_keys handlers d key value :
  exists d',
    fst (update_item handlers (VDict d) key value) = VDict d' /\
    forall k, dict_mem d k = true -> dict_mem d' k = true.
Proof.
  assert (Hset : forall x, exists d',
             VDict (dict_set d key x) = VDict d' /\
             forall k, dict_mem d k = true -> dict_mem d' k = true).
  { intros x. exists (dict_set d key x). split; auto.
    intros k Hk. unfold dict_mem in *.
    destruct (String.eqb key k) eqn:E.
    - apply String.eqb_eq in E. subst k. now rewrite dict_get_set_eq.
    - apply String.eqb_neq in E. now rewrite dict_get_set_neq. }
  unfold update_item.
  destruct (dict_get handlers key) as [h|]; [|exists d; auto].
  destruct (dict_get d key) as [existing|]; [|apply Hset].
  destruct existing; try (destruct (h _ value) as [x e]); simpl; apply Hset.
Qed.

Lemma update_items_keep_keys handlers items :
  forall d, exists d',
    fst (update_items handlers (VDict d) items) = VDict d' /\
    forall k, dict_mem d k = true -> dict_mem d' k = true.
Proof.
  induction items as [|[key value] items IH]; intros d; simpl.
  - exists d. auto.
  - destruct (update_item_keeps_keys handlers d key value) as (d1 & H1 & K1).
    destruct (update_item handlers (VDict d) key value) as [doc1 [e|]];
      simpl in H1; subst doc1.
    + exists d1. auto.
    + destruct (IH d1) as (d' & H' & K'). exists d'. auto.
Qed.

(** X20.  [update] never deletes a key: whether it returns or raises, every
    key of the document is still bound in the document it leaves. *)
Theorem update_keeps_keys :
  forall (cls : schema) (d patch : dict value) (k : string),
    dict_mem d k = true ->
    exists v, doc_lookup (fst (update cls (VDict d) (VDict patch))) k = Some v.
Proof.
  intros cls d patch k Hk. unfold update, update_with.
  destruct (update_items_keep_keys (handlers_of cls) patch d) as (d' & -> & K).
  specialize (K k Hk). unfold dict_mem in K. simpl.
  destruct (dict_get d' k) as [v|]; [eauto|discriminate].
Qed.

Lemma update_keeps_keys_witness :
  exists v,
    doc_lookup
      (fst (update Samples.a_nested (VDict [("a", VInt 1); ("z", VNone)])
              (VDict [("a", VInt 2); ("z", VInt 3)]))) "z" = Some v.
Proof.
  apply (update_keeps_keys Samples.a_nested [("a", VInt 1); ("z", VNone)]
           [("a", VInt 2); ("z", VInt 3)] "z").
  reflexivity.
Defined.

(** X21.  Patching a nested-schema field whose value in the document is not
    [None] with a value that is not a dictionary raises [AttributeError]
    and leaves the document as it was, where a field of any other class
    takes the patch value. *)
Theorem update_nested_by_non_dict_raises :
  forall (cls : schema) (d : dict value) (key : string) (a : attrs)
         (model : schema) (existing value : value),
    dict_get cls key = Some (DefinedDictField a model) ->
    dict_get d key = Some existing ->
    is_None existing = false ->
    isinstance value [TDict] = false ->
    update cls (VDict d) (VDict [(key, value)])
    = (VDict d, Some AttributeError).
Proof.
  intros cls d key a model existing value Hc Hd Hn Hv.
  unfold update, update_with. cbn [update_items].
  assert (Hh : dict_get (handlers_of cls) key
               = Some (update_field (DefinedDictField a model)))
    by (rewrite handlers_of_get, Hc; reflexivity).
  assert (Hex : existing <> VNone) by (intros ->; discriminate Hn).
  rewrite (update_item_declared _ _ _ _ _ _ Hh Hd Hex).
  rewrite update_field_nested. unfold update, update_with.
  destruct value; try discriminate Hv; cbn [fst snd];
    rewrite (dict_set_same _ _ _ Hd); reflexivity.
Qed.

Lemma update_nested_by_non_dict_raises_witness :
  update Samples.a_nested (VDict [("a", VDict [("b", VInt 1)])])
    (VDict [("a", VInt 5)])
  = (VDict [("a", VDict [("b", VInt 1)])], Some AttributeError) /\
  update Samples.a_map (VDict [("a", VDict [("b", VInt 1)])])
    (VDict [("a", VInt 5)])
  = (VDict [("a", VInt 5)], None).
Proof.
  split; [|reflexivity].
  apply (update_nested_by_non_dict_raises Samples.a_nested
           [("a", VDict [("b", VInt 1)])] "a" Samples.plain
           [("b", IntField_init Samples.plain None None);
            ("c", IntField_init Samples.plain None None)]
           (VDict [("b", VInt 1)]) (VInt 5)); reflexivity.
Defined.

(** * The field table built by the metaclass *)

Lemma unique_keys_set {V} (d : dict V) (k : string) (v : V) :
  unique_keys d = true -> unique_keys (dict_set d k v) = true.
Proof.
  induction d as [|[k0 v0] d IH]; intros Hu; [reflexivity|].
  apply unique_keys_cons in Hu. destruct Hu as [Hfresh Hu]. simpl.
  destruct (String.eqb k0 k) eqn:E; apply unique_keys_cons; split; auto.
  apply String.eqb_neq in E. rewrite dict_get_set_neq; auto.
Qed.

Lemma unique_keys_update {V} (other d : dict V) :
  unique_keys d = true -> unique_keys (dict_update d other) = true.
Proof.
  unfold dict_update. revert d.
  induction other as [|[k v] other IH]; intros d Hu; simpl; auto.
  apply IH. now apply unique_keys_set.
Qed.

Lemma dict_update_get_unbound {V} (other d : dict V) (k : string) :
  dict_get other k = None ->
  dict_get (dict_update d other) k = dict_get d k.
Proof.
  unfold dict_update. revert d.
  induction other as [|[k0 v0] other IH]; intros d Hk; simpl in *; auto.
  destruct (String.eqb k0 k) eqn:E; [discriminate|].
  apply String.eqb_neq in E. rewrite IH by assumption.
  now apply dict_get_set_neq.
Qed.

Lemma dict_update_fresh {V} (other d : dict V) :
  unique_keys other = true ->
  (forall k, In k (dict_keys other) -> dict_get d k = None) ->
  dict_update d other = d ++ other.
Proof.
  unfold dict_update. revert d.
  induction other as [|[k v] other IH]; intros d Hu Hd; simpl.
  - now rewrite app_nil_r.
  - apply unique_keys_cons in Hu. destruct Hu as [Hfresh Hu].
    rewrite IH; auto.
    + rewrite dict_set_fresh by (apply Hd; now left).
      now rewrite <- app_assoc.
    + intros k' Hk'. rewrite dict_get_set_neq.
      * apply Hd. now right.
      * intros ->. apply dict_get_None_keys in Hfresh. contradiction.
Qed.

Lemma inherit_fields_unique (bases : list base) (acc : schema) :
  unique_keys acc = true ->
  unique_keys (fold_left inherit_step bases acc) = true.
Proof.
  revert acc. induction bases as [|b bases IH]; intros acc Hu; simpl; auto.
  apply IH. unfold inherit_step.
  destruct (base_fields b); auto. now apply unique_keys_update.
Qed.

Lemma new_fields_get (cdict : dict attribute) (k : string) :
  unique_keys cdict = true ->
  dict_get (new_fields cdict) k =
  match dict_get cdict k with
  | Some (AField f) => Some f
  | _ => None
  end.
Proof.
  induction cdict as [|[k0 [f|]] cdict IH]; intros Hu; [reflexivity| |];
    apply unique_keys_cons in Hu; destruct Hu as [Hfresh Hu]; simpl;
    destruct (String.eqb k0 k) eqn:E; auto.
  apply String.eqb_eq in E. subst k0. rewrite IH by assumption.
  now rewrite Hfresh.
Qed.

Lemma new_fields_unique (cdict : dict attribute) :
  unique_keys cdict = true -> unique_keys (new_fields cdict) = true.
Proof.
  induction cdict as [|[k0 [f|]] cdict IH]; intros Hu; [reflexivity| |];
    apply unique_keys_cons in Hu; destruct Hu as [Hfresh Hu]; simpl; auto.
  apply unique_keys_cons. split; auto.
  rewrite new_fields_get by assumption. now rewrite Hfresh.
Qed.

Lemma inherit_fields_unbound (bases : list base) (acc : schema) (k : string) :
  (forall b fs, In b bases -> base_fields b = Some fs ->
                dict_get fs k = None) ->
  dict_get (fold_left inherit_step bases acc) k = dict_get acc k.
Proof.
  revert acc. induction bases as [|b bases IH]; intros acc H; simpl; auto.
  rewrite IH by (intros b' fs' Hin; apply H; now right).
  unfold inherit_step. destruct (base_fields b) as [fs|] eqn:E; auto.
  apply dict_update_get_unbound. apply (H b fs); auto. now left.
Qed.

(** X22.  The table that the metaclass builds has one entry per field
    name, whatever the bases and the class body are: the tables of the
    classes it creates meet the condition of distinct keys that the
    properties of [make_default] and [clean] ask for. *)
Theorem fields_table_has_distinct_keys :
  forall (bases : list base) (cdict : dict attribute),
    unique_keys (DefinedDictMetaClass_fields bases cdict) = true.
Proof.
  intros bases cdict. unfold DefinedDictMetaClass_fields, inherit_fields.
  apply unique_keys_update. now apply inherit_fields_unique.
Qed.

(** X23.  A field declared in the class body is the one in the table,
    whatever field of that name the bases have. *)
Theorem local_field_overrides_bases :
  forall (bases : list base) (cdict : dict attribute) (k : string)
         (f : field),
    unique_keys cdict = true ->
    dict_get cdict k = Some (AField f) ->
    dict_get (DefinedDictMetaClass_fields bases cdict) k = Some f.
Proof.
  intros bases cdict k f Hu Hk. unfold DefinedDictMetaClass_fields.
  rewrite dict_update_get by now apply new_fields_unique.
  rewrite new_fields_get by assumption. now rewrite Hk.
Qed.

(** X24.  A field that the class body does not declare comes from the last
    base that has it: a base later in the list of bases overrides an
    earlier one. *)
Theorem later_base_overrides_earlier :
  forall (before after : list base) (b : base) (cdict : dict attribute)
         (fs : schema) (k : string) (f : field),
    base_fields b = Some fs ->
    unique_keys fs = true ->
    dict_get fs k = Some f ->
    (forall b' fs', In b' after -> base_fields b' = Some fs' ->
                    dict_get fs' k = None) ->
    dict_get (new_fields cdict) k = None ->
    dict_get (DefinedDictMetaClass_fields (before ++ b :: after) cdict) k
    = Some f.
Proof.
  intros before after b cdict fs k f Hb Hu Hk Hafter Hnew.
  unfold DefinedDictMetaClass_fields, inherit_fields.
  rewrite dict_update_get_unbound by assumption.
  rewrite fold_left_app. cbn [fold_left].
  rewrite inherit_fields_unbound by assumption.
  unfold inherit_step at 1. rewrite Hb.
  rewrite dict_update_get by assumption. now rewrite Hk.
Qed.

(** X25.  A class that declares no field and has one base with a table
    gets that table, in the same order. *)
Theorem subclass_inherits_table :
  forall (fs : schema) (mixin : bool) (cdict : dict attribute),
    unique_keys fs = true ->
    new_fields cdict = [] ->
    DefinedDictMetaClass_fields [mkBase (Some fs) mixin] cdict = fs.
Proof.
  intros fs mixin cdict Hu Hnew.
  unfold DefinedDictMetaClass_fields, inherit_fields. rewrite Hnew.
  cbn. now apply (dict_update_fresh fs []).
Qed.

Lemma local_field_overrides_bases_witness :
  dict_get
    (DefinedDictMetaClass_fields [mkBase (Some Samples.a_map) false]
       [("a", AField (IntField_init Samples.plain None None));
        ("helper", AOther)]) "a"
  = Some (IntField_init Samples.plain None None).
Proof.
  apply (local_field_overrides_bases [mkBase (Some Samples.a_map) false]
           [("a", AField (IntField_init Samples.plain None None));
            ("helper", AOther)] "a"); reflexivity.
Defined.

Lemma later_base_overrides_earlier_witness :
  dict_get
    (DefinedDictMetaClass_fields
       [mkBase (Some Samples.a_map) false; mkBase None true;
        mkBase (Some Samples.a_nested) false;
        mkBase (Some Samples.inner_model) false]
       [("helper", AOther)]) "a"
  = dict_get Samples.a_nested "a".
Proof.
  apply (later_base_overrides_earlier
           [mkBase (Some Samples.a_map) false; mkBase None true]
           [mkBase (Some Samples.inner_model) false]
           (mkBase (Some Samples.a_nested) false)
           [("helper", AOther)] Samples.a_nested "a"); try reflexivity.
  intros b' fs' [<-|[]] [= <-]. reflexivity.
Defined.

Lemma subclass_inherits_table_witness :
  DefinedDictMetaClass_fields [mkBase (Some Samples.outer) false]
    [("helper", AOther)] = Samples.outer.
Proof.
  apply (subclass_inherits_table Samples.outer false [("helper", AOther)]);
    reflexivity.
Defined.

(** * The reverse index of a mapping of choices *)

Lemma py_eq_hashable_refl (v : value) : hashable v = true -> py_eq v v = true.
Proof.
  destruct v; intros H; try discriminate H; simpl.
  - reflexivity.
  - apply Qeq_bool_iff. reflexivity.
  - apply Qeq_bool_iff. reflexivity.
  - apply Qeq_bool_iff. reflexivity.
  - apply String.eqb_refl.
  - apply Z.eqb_refl.
Qed.

Lemma Qeq_bool_euclid (x y z : Q) :
  Qeq_bool x y = true -> Qeq_bool x z = true -> Qeq_bool y z = true.
Proof.
  rewrite !Qeq_bool_iff. intros H1 H2. now rewrite <- H1, <- H2.
Qed.

Lemma py_eq_hashable_euclid (a b c : value) :
  hashable a = true -> hashable b = true -> hashable c = true ->
  py_eq a b = true -> py_eq a c = true -> py_eq b c = true.
Proof.
  intros Ha Hb Hc.
  destruct a; try discriminate Ha; destruct b; try discriminate Hb;
    destruct c; try discriminate Hc; cbn [py_eq num_of];
    try discriminate; try reflexivity;
    try (apply Qeq_bool_euclid);
    try (rewrite !String.eqb_eq; congruence);
    try (rewrite !Z.eqb_eq; congruence).
Qed.

Lemma py_eq_hashable_sym (a b : value) :
  hashable a = true -> hashable b = true ->
  py_eq a b = true -> py_eq b a = true.
Proof.
  intros Ha Hb H.
  apply (py_eq_hashable_euclid a b a); auto using py_eq_hashable_refl.
Qed.

Lemma vdict_get_set_eq (d : list (value * value)) (k v : value) :
  hashable k = true -> vdict_get (vdict_set d k v) k = Some v.
Proof.
  intros Hk. induction d as [|[k0 v0] d IH]; simpl.
  - now rewrite py_eq_hashable_refl.
  - destruct (py_eq k0 k) eqn:E; simpl; rewrite E; auto.
Qed.

Lemma vdict_get_set_neq (d : list (value * value)) (k w v : value) :
  (forall k0 v0, In (k0, v0) d -> hashable k0 = true) ->
  hashable k = true -> hashable w = true ->
  py_eq k w = false ->
  vdict_get (vdict_set d k v) w = vdict_get d w.
Proof.
  intros Hd Hk Hw Hne. induction d as [|[k0 v0] d IH]; simpl.
  - now rewrite Hne.
  - assert (H0 : hashable k0 = true) by (apply (Hd k0 v0); now left).
    destruct (py_eq k0 k) eqn:E; simpl.
    + destruct (py_eq k0 w) eqn:E'; auto.
      rewrite (py_eq_hashable_euclid k0 k w) in Hne by assumption.
      discriminate.
    + rewrite IH; auto. intros k1 v1 Hin. apply (Hd k1 v1). now right.
Qed.

Lemma vdict_set_keys_hashable (d : list (value * value)) (k v : value) :
  (forall k0 v0, In (k0, v0) d -> hashable k0 = true) ->
  hashable k = true ->
  forall k0 v0, In (k0, v0) (vdict_set d k v) -> hashable k0 = true.
Proof.
  intros Hd Hk. induction d as [|[k1 v1] d IH]; simpl; intros k0 v0 Hin.
  - destruct Hin as [[= <- <-]|[]]. assumption.
  - destruct (py_eq k1 k).
    + destruct Hin as [[= <- <-]|Hin].
      * apply (Hd k1 v1). now left.
      * apply (Hd k0 v0). now right.
    + destruct Hin as [[= <- <-]|Hin].
      * apply (Hd k1 v1). now left.
      * eapply IH; [|exact Hin].
        intros k2 v2 H2. apply (Hd k2 v2). now right.
Qed.

Lemma reverse_items_inverse (items : list (value * value)) :
  forall acc,
    (forall k v, In (k, v) items -> hashable v = true) ->
    values_distinct items = true ->
    (forall k0 v0, In (k0, v0) acc -> hashable k0 = true) ->
    exists r,
      reverse_items items acc = Ok r /\
      (forall k v, In (k, v) items -> vdict_get r v = Some k) /\
      (forall w, hashable w = true ->
                 (forall k v, In (k, v) items -> py_eq v w = false) ->
                 vdict_get r w = vdict_get acc w).
Proof.
  induction items as [|[k v] items IH]; intros acc Hh Hd Hacc.
  - exists acc. repeat split; auto. intros k v [].
  - cbn [values_distinct] in Hd. apply andb_true_iff in Hd.
    destruct Hd as [Hv Hd]. apply negb_true_iff in Hv.
    assert (Hhv : hashable v = true) by (apply (Hh k v); now left).
    destruct (IH (vdict_set acc v k)) as (r & Hr & Hin & Hout); auto.
    { intros k' v' H'. apply (Hh k' v'). now right. }
    { now apply vdict_set_keys_hashable. }
    exists r. cbn [reverse_items]. rewrite Hhv. split; [exact Hr|]. split.
    + intros k' v' [[= <- <-]|H']; [|now apply Hin].
      rewrite Hout; auto using vdict_get_set_eq.
      intros k' v' H'.
      destruct (py_eq v' v) eqn:E; auto.
      assert (Hhv' : hashable v' = true) by (apply (Hh k' v'); now right).
      apply py_eq_hashable_sym in E; auto.
      assert (existsb (fun kv => py_eq v (snd kv)) items = true).
      { apply existsb_exists. exists (k', v'). auto. }
      congruence.
    + intros w Hw Hne. rewrite Hout; auto.
      * apply vdict_get_set_neq; auto. apply (Hne k v). now left.
      * intros k' v' H'. apply (Hne k' v'). now right.
Qed.

(** X26.  When the choices are a mapping whose values are hashable and
    pairwise different, [Field.__init__] stores a [reversed_choices] that
    is the inverse of the mapping: looking up the value of an entry gives
    back its key. *)
Theorem reversed_choices_is_inverse :
  forall (a : attrs) (d : list (value * value)),
    attr_choices a = Some (ChoiceDict d) ->
    (forall k v, In (k, v) d -> hashable v = true) ->
    values_distinct d = true ->
    exists r,
      reversed_choices a = Some (Ok r) /\
      forall k v, In (k, v) d -> vdict_get r v = Some k.
Proof.
  intros a d Ha Hh Hd. unfold reversed_choices. rewrite Ha.
  destruct (reverse_items_inverse d [] Hh Hd) as (r & Hr & Hin & _).
  { intros k0 v0 []. }
  exists r. rewrite Hr. auto.
Qed.

(** For [{"red": 1, "blue": 2}] the reverse index sends 1 to ["red"] and 2
    to ["blue"]. *)
Lemma reversed_choices_is_inverse_witness :
  let d := [(VStr "red", VInt 1); (VStr "blue", VInt 2)] in
  exists r,
    reversed_choices (mkAttrs false (Some (ChoiceDict d)) (PVal VNone))
    = Some (Ok r) /\
    vdict_get r (VInt 1) = Some (VStr "red") /\
    vdict_get r (VInt 2) = Some (VStr "blue").
Proof.
  intros d.
  destruct (reversed_choices_is_inverse
              (mkAttrs false (Some (ChoiceDict d)) (PVal VNone)) d eq_refl)
    as (r & Hr & Hin).
  - intros k v [[= <- <-]|[[= <- <-]|[]]]; reflexivity.
  - reflexivity.
  - exists r. split; [exact Hr|]. split; apply Hin; simpl; auto.
Defined.

(** When two entries of the mapping have equal values, the later
    entry wins in [reversed_choices], and a value that cannot be hashed
    makes [Field.__init__] raise [TypeError]. *)
Theorem reversed_choices_edge_cases :
  forall (k1 k2 v : value) (k : value) (l : list value)
         (rest : list (value * value)),
    hashable v = true ->
    reverse_items [(k1, v); (k2, v)] [] = Ok [(v, k2)] /\
    reverse_items ((k, VList l) :: rest) [] = Raise TypeError.
Proof.
  intros k1 k2 v k l rest Hv. split; [|reflexivity].
  cbn [reverse_items vdict_set]. rewrite Hv.
  now rewrite (py_eq_hashable_refl v Hv).
Qed.

Lemma reversed_choices_edge_cases_witness :
  reverse_items [(VStr "a", VInt 1); (VStr "b", VInt 1)] []
  = Ok [(VInt 1, VStr "b")].
Proof.
  apply (reversed_choices_edge_cases (VStr "a") (VStr "b") (VInt 1) VNone []
           []).
  reflexivity.
Defined.

(** * When validation raises and when it does not *)

(** X27.  A nested-schema field with no choices accepts [None] as a value,
    and the descent into the nested model then raises: when the model has
    at least one field, validation of a document that holds [None] under
    the key raises [TypeError] and yields nothing for the field. *)
Theorem nested_none_value_raises :
  forall (a : attrs) (k0 : string) (f0 : field) (rest : schema)
         (key : string) (d : dict value) (parent : option string),
    attr_choices a = None ->
    dict_get d key = Some VNone ->
    get_error (DefinedDictField a ((k0, f0) :: rest)) VNone = Ok None /\
    field_errors (DefinedDictField a ((k0, f0) :: rest)) key (VDict d) parent
    = ([], Some TypeError) /\
    get_document_errors [(key, DefinedDictField a ((k0, f0) :: rest))]
      (VDict [(key, VNone)]) = Raise TypeError.
Proof.
  intros a k0 f0 rest key d parent Hc Hd.
  assert (He : get_error (DefinedDictField a ((k0, f0) :: rest)) VNone
               = Ok None)
    by (cbn [get_error]; apply Field_get_error_no_choices; auto).
  assert (Hf0 : forall p, field_errors f0 k0 VNone p = gen_raise TypeError)
    by (intros p; destruct f0; reflexivity).
  assert (Hall : forall d' p, dict_get d' key = Some VNone ->
             field_errors (DefinedDictField a ((k0, f0) :: rest)) key
               (VDict d') p = ([], Some TypeError)).
  { intros d' p Hd'.
    rewrite (field_errors_nested a _ key (VDict d') p VNone None);
      [| cbn; unfold dict_mem; now rewrite Hd'
       | cbn; now rewrite Hd'
       | exact He].
    cbn [_get_document_errors]. rewrite Hf0. reflexivity. }
  split; [exact He|]. split; [now apply Hall|].
  unfold get_document_errors. cbn [_get_document_errors].
  rewrite Hall; [reflexivity|]. cbn. now rewrite String.eqb_refl.
Qed.

Lemma nested_none_value_raises_witness :
  get_document_errors
    [("n", DefinedDictField Samples.plain
             [("x", IntField_init (Samples.with_default (VInt 1)) None None);
              ("y", IntField_init Samples.plain None None)])]
    (VDict [("n", VNone)]) = Raise TypeError.
Proof.
  apply (nested_none_value_raises Samples.plain "x"
           (IntField_init (Samples.with_default (VInt 1)) None None)
           [("y", IntField_init Samples.plain None None)] "n"
           [("n", VNone)] None); reflexivity.
Defined.

Lemma py_in_absent_or_list (self : field) (v : value) :
  choices_absent_or_list self = true ->
  exists r, Field_get_error self v = Ok r.
Proof.
  unfold choices_absent_or_list, Field_get_error. intros H.
  destruct (negb (is_valid_type self v)); [eauto|].
  destruct (choices self) as [[l|d]|]; try discriminate H; cbn; eauto.
  destruct (negb (existsb (py_eq v) l)); eauto.
Qed.

Lemma py_in_hashable (self : field) (v : value) :
  (is_valid_type self v = true -> hashable v = true) ->
  exists r, Field_get_error self v = Ok r.
Proof.
  unfold Field_get_error. intros H.
  destruct (is_valid_type self v); cbn [negb]; [|eauto].
  destruct (choices self) as [[l|d]|]; cbn; eauto.
  - destruct (negb (existsb (py_eq v) l)); eauto.
  - rewrite H by reflexivity. cbn.
    destruct (negb (existsb (fun kv => py_eq v (fst kv)) d)); eauto.
Qed.

Lemma get_error_no_raising_path (self : field) (v : value) :
  no_raising_path self = true -> exists r, get_error self v = Ok r.
Proof.
  intros H. destruct self; try discriminate H; cbn [get_error].
  - now apply py_in_absent_or_list.
  - destruct regex; [discriminate H|]. unfold StringField_get_error.
    destruct (py_in_hashable (StringField a None) v) as [r ->].
    { destruct v; try discriminate; reflexivity. }
    destruct r; cbn; eauto.
  - cbn in H. apply andb_true_iff in H. destruct H as [H Hb].
    destruct min; [discriminate|]. destruct max; [discriminate|].
    unfold NumberField_get_error.
    destruct (py_in_absent_or_list (NumberField a None None) v H) as [r ->].
    destruct r; cbn; eauto. destruct (is_None v); eauto.
  - unfold NumberField_get_error.
    destruct (Field_get_error (IntField a min max) v) as [r|e] eqn:E.
    + destruct r; cbn; eauto.
      assert (Hv : is_valid_type (IntField a min max) v = true).
      { unfold Field_get_error in E.
        destruct (is_valid_type (IntField a min max) v); [reflexivity|].
        discriminate E. }
      destruct v; cbn; eauto; try discriminate Hv;
        unfold py_lt, py_ge; cbn [num_of];
        destruct min as [m|]; cbn [bind];
        try destruct (Qltb _ m); eauto;
        destruct max as [m'|]; cbn [bind];
        try destruct (Qle_bool m' _); eauto.
    + destruct (py_in_hashable (IntField a min max) v) as [r Hr].
      { destruct v; try discriminate; reflexivity. }
      congruence.
  - unfold NumberField_get_error.
    destruct (Field_get_error (FloatField a min max) v) as [r|e] eqn:E.
    + destruct r; cbn; eauto.
      assert (Hv : is_valid_type (FloatField a min max) v = true).
      { unfold Field_get_error in E.
        destruct (is_valid_type (FloatField a min max) v); [reflexivity|].
        discriminate E. }
      destruct v; cbn; eauto; try discriminate Hv;
        unfold py_lt, py_ge; cbn [num_of];
        destruct min as [m|]; cbn [bind];
        try destruct (Qltb _ m); eauto;
        destruct max as [m'|]; cbn [bind];
        try destruct (Qle_bool m' _); eauto.
    + destruct (py_in_hashable (FloatField a min max) v) as [r Hr].
      { destruct v; try discriminate; reflexivity. }
      congruence.
  - apply py_in_hashable. destruct v; try discriminate; reflexivity.
  - now apply py_in_absent_or_list.
  - now apply py_in_absent_or_list.
  - apply py_in_hashable. destruct v; try discriminate; reflexivity.
Qed.

(** X28.  With choices that, where given, are a list or a dict:
    validation of a dictionary never raises for a class with no
    nested-schema field whose fields all are without a raising path: no
    list field, no regex, choices that are absent or a list on the fields
    whose values may be unhashable ([Field], [NumberField], [DictField]),
    and no bounds on a bare [NumberField].  Then [get_document_errors]
    returns a list and [is_valid] a boolean. *)
Theorem validation_without_raising_path :
  forall (cls : schema) (d : dict value),
    flat cls = true ->
    forallb (fun kd => no_raising_path (snd kd)) cls = true ->
    (exists l, get_document_errors cls (VDict d) = Ok l) /\
    (exists b, is_valid cls (VDict d) = Ok b).
Proof.
  intros cls d Hflat Hsafe.
  assert (H : snd (_get_document_errors cls (VDict d) None) = None).
  { induction cls as [|[k f] cls IH]; [reflexivity|].
    cbn [flat forallb snd] in Hflat, Hsafe.
    apply andb_true_iff in Hflat. destruct Hflat as [Hf Hflat].
    apply andb_true_iff in Hsafe. destruct Hsafe as [Hs Hsafe].
    apply negb_true_iff in Hf.
    cbn [_get_document_errors]. specialize (IH Hflat Hsafe).
    assert (Hone : snd (field_errors f k (VDict d) None) = None).
    { destruct (dict_mem d k) eqn:Hm.
      - destruct (get_error_no_raising_path f
                    (match dict_get d k with Some v => v | None => VNone end)
                    Hs) as [r Hr].
        destruct f; try discriminate Hf;
          cbn [field_errors py_contains py_get]; rewrite Hm, Hr;
          destruct r as [[kind v]|]; reflexivity.
      - rewrite field_errors_absent by assumption.
        now destruct (is_required f). }
    destruct (field_errors f k (VDict d) None) as [l1 e1].
    destruct (_get_document_errors cls (VDict d) None) as [l2 e2].
    simpl in *. subst. reflexivity. }
  unfold get_document_errors, is_valid.
  destruct (_get_document_errors cls (VDict d) None) as [[|r l] e];
    simpl in H; subst e; eauto.
Qed.

Lemma validation_without_raising_path_witness :
  (exists l,
      get_document_errors Samples.inner_model
        (VDict [("x", VStr "no"); ("y", VNone)]) = Ok l) /\
  get_document_errors Samples.inner_model
    (VDict [("x", VStr "no"); ("y", VNone)])
  = Ok [Rec3 "x" "type" (VStr "no")].
Proof.
  split; [|reflexivity].
  apply (validation_without_raising_path Samples.inner_model
           [("x", VStr "no"); ("y", VNone)]); reflexivity.
Defined.

(** * update applied twice *)

Lemma dict_update_fixed {V} (other d : dict V) :
  (forall k x, In (k, x) other -> dict_get d k = Some x) ->
  dict_update d other = d.
Proof.
  intros H. unfold dict_update. apply fold_left_fixed.
  intros [k x] Hin. cbn [fst snd]. apply dict_set_same. now apply H.
Qed.

Lemma dict_update_self {V} (v : dict V) :
  unique_keys v = true -> dict_update v v = v.
Proof.
  intros Hu. apply dict_update_fixed. intros k x Hin.
  now apply unique_keys_get.
Qed.

Lemma dict_update_twice {V} (e v : dict V) :
  unique_keys v = true ->
  dict_update (dict_update e v) v = dict_update e v.
Proof.
  intros Hu. apply dict_update_fixed. intros k x Hin.
  rewrite dict_update_get by assumption.
  now rewrite (unique_keys_get v k x Hu Hin).
Qed.

Lemma update_items_fixed (handlers : dict handler) (document : value) items :
  (forall k v, In (k, v) items ->
               update_item handlers document k v = (document, None)) ->
  update_items handlers document items = (document, None).
Proof.
  induction items as [|[k v] items IH]; intros H; [reflexivity|].
  cbn [update_items]. rewrite (H k v) by now left.
  apply IH. intros k' v' Hin. apply H. now right.
Qed.

(** What a field that is not a nested-schema field leaves under its key,
    patched a second time with the same value, is what the first patch
    left. *)
Lemma update_field_plain_again definition existing value :
  is_DefinedDictField definition = false ->
  (forall v, value = VDict v -> unique_keys v = true) ->
  let r := fst (update_field definition existing value) in
  (is_None r = true -> value = r) /\
  update_field definition r value = (r, None).
Proof.
  intros Hd Hu.
  assert (E : forall definition' x,
             is_DefinedDictField definition' = false ->
             update_field definition' x value =
             match value, x with
             | VDict v, VDict e => (VDict (dict_update e v), None)
             | _, _ => (value, None)
             end)
    by (intros definition' x H'; destruct definition';
        try discriminate H'; reflexivity).
  cbn zeta. rewrite !E by assumption.
  destruct value as [| | | | | |v|]; cbn [fst];
    try (split; [reflexivity|destruct existing; reflexivity]).
  specialize (Hu v eq_refl). destruct existing as [| | | | | |e|]; cbn [fst];
    (split; [discriminate|]);
    rewrite ?dict_update_self, ?dict_update_twice by assumption; reflexivity.
Qed.



(** * update on shared dictionaries *)

Section SharedRegion.

Import Shared.

Variable M : loc -> Prop.

Lemma within_region_refl (s : store) : closed M s -> within_region M s s.
Proof. intros H. split; auto. Qed.

Lemma within_region_trans (s s1 s2 : store) :
  within_region M s s1 -> within_region M s1 s2 -> within_region M s s2.
Proof.
  intros [_ H1] [C2 H2]. split; auto.
  intros l Hl. now rewrite H2, H1.
Qed.

Lemma In_dict_set {V} (d : dict V) (key : string) (x : V) (k : string)
    (v : V) :
  In (k, v) (dict_set d key x) -> (k, v) = (key, x) \/ In (k, v) d.
Proof.
  induction d as [|[k0 v0] d IH]; simpl.
  - intros [H|[]]. left. now symmetry.
  - destruct (String.eqb k0 key) eqn:E; simpl.
    + intros [H|H]; auto.
      apply String.eqb_eq in E. subst k0. left. now symmetry.
    + intros [H|H]; auto. destruct (IH H); auto.
Qed.

Lemma In_dict_update {V} (other d : dict V) (k : string) (v : V) :
  In (k, v) (dict_update d other) -> In (k, v) d \/ In (k, v) other.
Proof.
  unfold dict_update. revert d.
  induction other as [|[k0 v0] other IH]; intros d H; simpl in *; auto.
  apply IH in H. destruct H as [H|H]; auto.
  apply In_dict_set in H. destruct H as [H|H]; auto.
Qed.

Lemma store_set_within (s : store) (l : loc) (d : dict rvalue) :
  closed M s -> M l ->
  (forall k v, In (k, v) d -> refs_in M v) ->
  within_region M s (store_set s l d).
Proof.
  intros Hc Hl Hd. split.
  - intros l0 H0 k v. unfold store_set.
    destruct (Nat.eqb l0 l); [apply Hd|now apply Hc].
  - intros l0 H0. unfold store_set.
    destruct (Nat.eqb l0 l) eqn:E; auto.
    apply Nat.eqb_eq in E. subst l0. contradiction.
Qed.

Lemma set_key_within (s : store) (ld : loc) (key : string) (value : rvalue) :
  closed M s -> M ld -> refs_in M value ->
  within_region M s (store_set s ld (dict_set (s ld) key value)).
Proof.
  intros Hc Hl Hv. apply store_set_within; auto.
  intros k v H. apply In_dict_set in H.
  destruct H as [[= -> ->]|H]; auto. now apply (Hc ld Hl k).
Qed.

Lemma update_item_within (handlers : dict handler) document key value s s' e :
  (forall k h, dict_get handlers k = Some h -> handler_within M h) ->
  closed M s -> refs_in M document -> refs_in M value ->
  update_item handlers document key value s = (s', e) ->
  within_region M s s'.
Proof.
  intros Hh Hc Hd Hv. unfold update_item.
  destruct (dict_get handlers key) as [h|] eqn:Eh;
    [|intros [= <- <-]; now apply within_region_refl].
  destruct document; try (intros [= <- <-]; now apply within_region_refl).
  simpl in Hd.
  destruct (dict_get (s l) key) as [existing|] eqn:Ee;
    [|intros [= <- <-]; now apply set_key_within].
  assert (He : refs_in M existing)
    by (apply (Hc l Hd key); now apply dict_get_In).
  destruct existing;
    try (intros H; apply (Hh key h Eh _ _ _ _ _ _ _ Hc Hd He Hv H)).
  intros [= <- <-]. now apply set_key_within.
Qed.

Lemma update_loop_within (handlers : dict handler) document lp size todo :
  (forall k h, dict_get handlers k = Some h -> handler_within M h) ->
  refs_in M document -> M lp ->
  forall i s s' e,
    closed M s ->
    update_loop handlers document lp size todo i s = (s', e) ->
    within_region M s s'.
Proof.
  intros Hh Hd Hp. induction todo as [|todo IH]; intros i s s' e Hc;
    cbn [update_loop];
    destruct (negb (Nat.eqb (List.length (s lp)) size));
    try (intros [= <- <-]; now apply within_region_refl).
  destruct (nth_error (s lp) i) as [[key value]|] eqn:En;
    [|intros [= <- <-]; now apply within_region_refl].
  assert (Hv : refs_in M value)
    by (apply (Hc lp Hp key); now apply (nth_error_In _ i)).
  destruct (update_item handlers document key value s) as [s1 [e1|]] eqn:E1.
  - intros [= <- <-].
    now apply (update_item_within handlers document key value s s1 (Some e1)).
  - intros H.
    pose proof (update_item_within handlers document key value s s1 None
                  Hh Hc Hd Hv E1) as W1.
    apply (within_region_trans s s1 s'); auto.
    apply (IH (S i) s1 s' e); auto. apply W1.
Qed.

Lemma update_with_within (handlers : dict handler) document new_value s s' e :
  (forall k h, dict_get handlers k = Some h -> handler_within M h) ->
  closed M s -> refs_in M document -> refs_in M new_value ->
  update_with handlers document new_value s = (s', e) ->
  within_region M s s'.
Proof.
  intros Hh Hc Hd Hn. unfold update_with.
  destruct new_value;
    try (intros [= <- <-]; now apply within_region_refl).
  simpl in Hn. now apply update_loop_within.
Qed.

Lemma shared_handlers_of_get (cls : schema) (key : string) :
  dict_get (handlers_of cls) key
  = option_map update_field (dict_get cls key).
Proof.
  induction cls as [|[k d] cls IH]; simpl; auto.
  destruct (String.eqb k key); auto.
Qed.

Lemma shared_update_field_nested a model ld key existing value s :
  update_field (DefinedDictField a model) ld key existing value s
  = update model existing value s.
Proof.
  unfold update, handlers_of. simpl. f_equal.
  induction model as [|[k d] model IH]; simpl; auto.
  now rewrite IH.
Qed.

Lemma update_field_plain definition ld key existing value s :
  is_DefinedDictField definition = false ->
  update_field definition ld key existing value s =
  match value, existing with
  | RDict lv, RDict le => (store_set s le (dict_update (s le) (s lv)), None)
  | _, _ => (store_set s ld (dict_set (s ld) key value), None)
  end.
Proof.
  intros H. destruct definition; try discriminate H; reflexivity.
Qed.

Lemma merge_dicts_within (s : store) (le lv : loc) :
  closed M s -> M le -> M lv ->
  within_region M s (store_set s le (dict_update (s le) (s lv))).
Proof.
  intros Hc He Hv. apply store_set_within; auto.
  intros k v H. apply In_dict_update in H.
  destruct H as [H|H]; [now apply (Hc le He k)|now apply (Hc lv Hv k)].
Qed.

Lemma update_field_plain_within definition :
  is_DefinedDictField definition = false ->
  handler_within M (update_field definition).
Proof.
  intros Hp ld key existing value s s' e Hc Hl He Hv.
  rewrite update_field_plain by assumption.
  destruct value, existing; intros [= <- <-];
    try (now apply set_key_within).
  simpl in He, Hv. now apply merge_dicts_within.
Qed.

(** [update] called on a document and a patch of a closed region changes
    dictionaries of that region only. *)
Lemma update_within :
  forall (cls : schema) document new_value s s' e,
    closed M s -> refs_in M document -> refs_in M new_value ->
    update cls document new_value s = (s', e) ->
    within_region M s s'.
Proof.
  induction cls as [cls IH] using schema_nested_ind.
  intros document new_value s s' e Hc Hd Hn. unfold update.
  apply update_with_within; auto.
  intros k h Hk. rewrite shared_handlers_of_get in Hk.
  destruct (dict_get cls k) as [definition|] eqn:Ek; [|discriminate].
  injection Hk as <-.
  destruct (is_DefinedDictField definition) eqn:Ed;
    [|now apply update_field_plain_within].
  destruct definition; try discriminate Ed.
  intros ld key existing value s0 s0' e0 Hc0 Hl He Hv.
  rewrite shared_update_field_nested.
  apply (IH k a model); auto. now apply dict_get_In.
Qed.

End SharedRegion.

Section SharedFrame.

Import Shared.

Variables (cls : schema) (M : loc -> Prop) (ld lp : loc) (s0 : store).

Hypothesis document_outside : ~ M ld.
Hypothesis patch_outside : ~ M lp.
Hypothesis patch_not_document : lp <> ld.
Hypothesis patch_values : forall k v, In (k, v) (s0 lp) -> refs_in M v.


Lemma invariant_within (s s1 : store) :
  frame_invariant cls M ld lp s0 s -> within_region M s s1 -> frame_invariant cls M ld lp s0 s1.
Proof.
  intros (Hc & Ho & Hf & Hv) [Hc1 H1]. repeat split; auto.
  - intros l Hl Hne. rewrite H1 by assumption. now apply Ho.
  - intros k Hk. rewrite H1 by assumption. now apply Hf.
  - intros k v Hk. rewrite H1 by assumption. now apply Hv.
Qed.

Lemma invariant_set (s : store) (key : string) (value : rvalue) :
  frame_invariant cls M ld lp s0 s -> patched cls s0 lp key = true -> refs_in M value ->
  frame_invariant cls M ld lp s0 (store_set s ld (dict_set (s ld) key value)).
Proof.
  intros (Hc & Ho & Hf & Hv) Hk Hval.
  assert (Hld : store_set s ld (dict_set (s ld) key value) ld
                = dict_set (s ld) key value)
    by (unfold store_set; now rewrite Nat.eqb_refl).
  assert (Hother : forall l, l <> ld ->
             store_set s ld (dict_set (s ld) key value) l = s l).
  { intros l Hl. unfold store_set.
    destruct (Nat.eqb l ld) eqn:E; auto.
    apply Nat.eqb_eq in E. contradiction. }
  repeat split.
  - intros l Hl. rewrite Hother by (intros ->; contradiction).
    now apply Hc.
  - intros l Hl Hne. rewrite Hother by assumption. now apply Ho.
  - intros k Hp. rewrite Hld. rewrite dict_get_set_neq; auto.
    intros ->. congruence.
  - intros k v Hp. rewrite Hld.
    destruct (String.eqb key k) eqn:E.
    + apply String.eqb_eq in E. subst k. rewrite dict_get_set_eq.
      now intros [= <-].
    + apply String.eqb_neq in E. rewrite dict_get_set_neq by assumption.
      now apply Hv.
Qed.

Lemma update_item_invariant (s s1 : store) key value e :
  frame_invariant cls M ld lp s0 s ->
  In (key, value) (s0 lp) ->
  update_item (handlers_of cls) (RDict ld) key value s = (s1, e) ->
  frame_invariant cls M ld lp s0 s1.
Proof.
  intros Hinv Hin. pose proof Hinv as (Hc & Ho & Hf & Hv).
  unfold update_item. rewrite shared_handlers_of_get.
  destruct (dict_get cls key) as [definition|] eqn:Ek; cbn [option_map];
    [|now intros [= <- <-]].
  assert (Hk : patched cls s0 lp key = true).
  { unfold Shared.patched. cbn beta. apply andb_true_iff. split.
    - apply dict_mem_true. unfold dict_keys. now apply (in_map fst) in Hin.
    - unfold dict_mem. now rewrite Ek. }
  assert (Hval : refs_in M value) by now apply (patch_values key).
  destruct (dict_get (s ld) key) as [existing|] eqn:Ee;
    [|intros [= <- <-]; now apply invariant_set].
  assert (He : refs_in M existing) by now apply (Hv key).
  assert (Hrun : forall s' e',
             update_field definition ld key existing value s = (s', e') ->
             frame_invariant cls M ld lp s0 s').
  { intros s' e' H.
    destruct (is_DefinedDictField definition) eqn:Ed.
    - destruct definition; try discriminate Ed.
      rewrite shared_update_field_nested in H.
      apply (invariant_within s); auto.
      now apply (update_within M model existing value s s' e').
    - rewrite update_field_plain in H by assumption.
      destruct value, existing; injection H as <- <-;
        try (now apply invariant_set).
      simpl in He, Hval. apply (invariant_within s); auto.
      now apply merge_dicts_within. }
  destruct existing; try (apply Hrun).
  intros [= <- <-]. now apply invariant_set.
Qed.

Lemma update_loop_invariant size todo :
  forall i s s' e,
    frame_invariant cls M ld lp s0 s ->
    update_loop (handlers_of cls) (RDict ld) lp size todo i s = (s', e) ->
    frame_invariant cls M ld lp s0 s'.
Proof.
  induction todo as [|todo IH]; intros i s s' e Hinv; cbn [update_loop];
    destruct (negb (Nat.eqb (List.length (s lp)) size));
    try (now intros [= <- <-]).
  assert (Hlp : s lp = s0 lp) by (destruct Hinv as (_ & Ho & _); auto).
  destruct (nth_error (s lp) i) as [[key value]|] eqn:En;
    [|now intros [= <- <-]].
  assert (Hin : In (key, value) (s0 lp))
    by (rewrite <- Hlp; now apply (nth_error_In _ i)).
  destruct (update_item (handlers_of cls) (RDict ld) key value s)
    as [s1 [e1|]] eqn:E1.
  - intros [= <- <-]. now apply (update_item_invariant s s1 key value (Some e1)).
  - apply IH. now apply (update_item_invariant s s1 key value None).
Qed.

Lemma refs_in_list (N : loc -> Prop) (vs : list rvalue) :
  refs_in N (RList vs) <-> forall x, In x vs -> refs_in N x.
Proof.
  induction vs as [|x vs IH]; simpl.
  - split; [intros _ y []|auto].
  - split.
    + intros [Hx Hr] y [<-|Hy]; auto. now apply IH.
    + intros H. split; [apply H; now left|].
      apply IH. intros y Hy. apply H. now right.
Qed.

(** The tree seen from a value of a closed region is the same in two
    stores that agree on the region. *)
Lemma content_agree (N : loc -> Prop) (s s' : store) :
  closed N s ->
  (forall l, N l -> s' l = s l) ->
  forall depth v, refs_in N v -> content depth s' v = content depth s v.
Proof.
  intros Hc Hs. induction depth as [|n IH]; intros v Hv; [reflexivity|].
  destruct v; cbn [content]; try reflexivity.
  - f_equal. apply map_ext_in. intros x Hx. apply IH.
    now apply (proj1 (refs_in_list N l)).
  - simpl in Hv. rewrite (Hs l Hv). f_equal.
    apply map_ext_in. intros [k x] Hx. cbn [fst snd]. f_equal.
    apply IH. now apply (Hc l Hv k).
Qed.

Lemma update_loop_undeclared (handlers : dict handler) document (lq : loc)
    (s : store) :
  (forall k v, In (k, v) (s lq) -> dict_get handlers k = None) ->
  forall todo i,
    update_loop handlers document lq (List.length (s lq)) todo i s = (s, None).
Proof.
  intros H. induction todo as [|todo IH]; intros i; cbn [update_loop];
    rewrite Nat.eqb_refl; cbn [negb]; [reflexivity|].
  destruct (nth_error (s lq) i) as [[key value]|] eqn:En; [|reflexivity].
  unfold update_item. rewrite (H key value) by now apply (nth_error_In _ i).
  apply IH.
Qed.


End SharedFrame.



(** The condition on the path in X9 and X10 is needed.  A field named [""]
    at the top has the empty path, which [key_string] takes for no parent:
    the records of its model carry the bare names of the model's fields,
    and a model that requires [""] yields the record [("", "required")]
    although the key [""] of the document is present. *)
Lemma empty_field_name_has_no_path :
  fst (field_errors
         (DefinedDictField Samples.plain
            [("leaf", IntField_init Samples.required None None)])
         "" (VDict [("", VDict [])]) None)
  = [Rec2 "leaf" "required"] /\
  fst (field_errors
         (DefinedDictField Samples.plain
            [("", IntField_init Samples.required None None)])
         "" (VDict [("", VDict [])]) None)
  = [Rec2 "" "required"].
Proof.
  split; reflexivity.
Qed.
